(** * Verification of redis-client: endpoint parsing, client construction,
    the lazy connection cell and the operation dispatcher.

    Shallow embedding of [src/src/redis_client.rs], [src/src/settings.rs]
    and [src/src/error.rs].  The external crates ([http::Uri], [redis],
    [tokio::sync::OnceCell]) enter as Section variables or as small models
    of their documented behaviour. *)

From Stdlib Require Import String Ascii ZArith List Lia Bool.
Import ListNotations.
Open Scope string_scope.

(** ** Results *)

Inductive result (A E : Type) : Type :=
| Ok : A -> result A E
| Err : E -> result A E.
Arguments Ok {A E} _.
Arguments Err {A E} _.

Definition map_err {A E F : Type} (f : E -> F) (r : result A E) : result A F :=
  match r with
  | Ok a => Ok a
  | Err e => Err (f e)
  end.

Definition map_ok {A B E : Type} (f : A -> B) (r : result A E) : result B E :=
  match r with
  | Ok a => Ok (f a)
  | Err e => Err e
  end.

(** ** error.rs *)

Inductive ErrorKind := Unexpected | ConfigInvalid.

Definition ErrorKind_into_static (k : ErrorKind) : string :=
  match k with
  | Unexpected => "Unexpected"
  | ConfigInvalid => "ConfigInvalid"
  end.

(** [Error]: the backtrace is left out (it renders stack frames only);
    the source is kept as its rendered text. *)
Record Error := mkError {
  kind : ErrorKind;
  message : string;
  context : list (string * string);
  source : option string
}.

Definition Error_new (k : ErrorKind) (msg : string) : Error :=
  mkError k msg [] None.

Definition with_context (e : Error) (key value : string) : Error :=
  mkError (kind e) (message e) (context e ++ [(key, value)]) (source e).

Definition set_source (e : Error) (src : string) : Error :=
  mkError (kind e) (message e) (context e) (Some src).

Fixpoint join (sep : string) (l : list string) : string :=
  match l with
  | [] => ""
  | [x] => x
  | x :: xs => x ++ sep ++ join sep xs
  end.

(** [impl Display for Error]. *)
Definition Error_display (e : Error) : string :=
  ErrorKind_into_static (kind e)
  ++ (match context e with
      | [] => ""
      | ctx => ", context: { "
               ++ join ", " (map (fun '(k, v) => k ++ ": " ++ v) ctx)
               ++ " }"
      end)
  ++ (if String.eqb (message e) "" then "" else " => " ++ message e)
  ++ (match source e with
      | Some s => ", source: " ++ s
      | None => ""
      end).

Definition nl : string := String (ascii_of_nat 10) "".

(** [impl Debug for Error], non-alternate form.  The backtrace block,
    written last and only when a backtrace was captured, is left out, and
    so is the [{:#?}] form (a [debug_struct] of the four fields). *)
Definition Error_debug (e : Error) : string :=
  ErrorKind_into_static (kind e)
  ++ (if String.eqb (message e) "" then "" else " => " ++ message e)
  ++ nl
  ++ (match context e with
      | [] => ""
      | ctx => nl ++ "Context:" ++ nl
               ++ String.concat "" (map (fun '(k, v) => "   " ++ k ++ ": " ++ v ++ nl) ctx)
      end)
  ++ (match source e with
      | Some s => nl ++ "Source:" ++ nl ++ "   " ++ s ++ nl
      | None => ""
      end).

(** ** Decimal rendering of integers ([i64::to_string]) *)

Fixpoint digits_of_pos_aux (fuel : nat) (n : Z) (acc : string) : string :=
  match fuel with
  | O => acc
  | S f =>
      let d := String (ascii_of_nat (48 + Z.to_nat (n mod 10))) "" in
      if Z.ltb n 10 then d ++ acc else digits_of_pos_aux f (n / 10) (d ++ acc)
  end.

Definition string_of_Z (z : Z) : string :=
  if Z.ltb z 0 then "-" ++ digits_of_pos_aux 64 (- z) ""
  else digits_of_pos_aux 64 z "".

Definition dquote : string := String (ascii_of_nat 34) "".

(** [impl Debug for str]: quotes and escapes. *)
Definition hex_digit (n : nat) : string :=
  String (ascii_of_nat (if Nat.ltb n 10 then 48 + n else 87 + n)) "".

Definition escape_char (c : ascii) : string :=
  let n := nat_of_ascii c in
  if Nat.eqb n 34 then "\" ++ dquote
  else if Nat.eqb n 92 then "\\"
  else if Nat.eqb n 10 then "\n"
  else if Nat.eqb n 13 then "\r"
  else if Nat.eqb n 9 then "\t"
  else if Nat.eqb n 0 then "\0"
  else if Nat.ltb n 32 || Nat.eqb n 127 then
    "\u{" ++ (if Nat.ltb n 16 then "" else hex_digit (n / 16)) ++ hex_digit (n mod 16) ++ "}"
  else String c "".

Fixpoint escape_debug (s : string) : string :=
  match s with
  | EmptyString => ""
  | String c r => escape_char c ++ escape_debug r
  end.

Definition debug_str (s : string) : string := dquote ++ escape_debug s ++ dquote.

(** [DebugStruct]: each value is already rendered.  [{:?}] gives
    [Name { f1: v1, f2: v2 }], with [, .. }] for [finish_non_exhaustive];
    [{:#?}] ([alternate]) writes [ {], then one [    f: v,] line per field
    (through [PadAdapter]), then [    ..] for [finish_non_exhaustive], then
    [}].  With no field both give [Name], or [Name { .. }]. *)
Definition debug_struct (alternate : bool) (name : string) (fields : list (string * string))
    (non_exhaustive : bool) : string :=
  match fields with
  | [] => name ++ (if non_exhaustive then " { .. }" else "")
  | _ =>
      if alternate then
        name ++ " {" ++ nl
        ++ String.concat "" (map (fun '(k, v) => "    " ++ k ++ ": " ++ v ++ "," ++ nl) fields)
        ++ (if non_exhaustive then "    .." ++ nl else "")
        ++ "}"
      else
        name ++ " { "
        ++ join ", " (map (fun '(k, v) => k ++ ": " ++ v) fields)
        ++ (if non_exhaustive then ", .. }" else " }")
  end.

Module settings.

Record RedisSettings := mkSettings {
  address : option string;
  addresses : option string;
  username : option string;
  password : option string;
  db : Z
}.

(** [impl Debug for RedisSettings]: the password is shown as a fixed
    marker when present; [alternate] is the formatter's [{:#?}] flag. *)
Definition RedisSettings_debug (alternate : bool) (s : RedisSettings) : string :=
  debug_struct alternate "RedisSettings"
    ([("db", debug_str (string_of_Z (db s)))]
     ++ (match address s with Some a => [("address", debug_str a)] | None => [] end)
     ++ (match addresses s with Some a => [("cluster_endpoints", debug_str a)] | None => [] end)
     ++ (match username s with Some u => [("username", debug_str u)] | None => [] end)
     ++ (match password s with Some _ => [("password", debug_str "<redacted>")] | None => [] end))
    true.

End settings.

Import settings (RedisSettings, mkSettings, RedisSettings_debug).

(** ** External types: [http::Uri] and the [redis] crate *)

(** The parts of a parsed [http::Uri] that [get_connection_info] reads:
    [scheme_str()], [host()], [port_u16()] and [path()]. *)
Record Uri := mkUri {
  scheme_str : option string;
  host : option string;
  port_u16 : option Z;
  path : string
}.

(** [redis::TlsConnParams]: never built by this crate. *)
Inductive TlsConnParams := TlsConnParams_opaque.

Inductive ConnectionAddr :=
| Tcp (host : string) (port : Z)
| TcpTls (host : string) (port : Z) (insecure : bool) (tls_params : option TlsConnParams)
| Unix (path : string).

Record RedisConnectionInfo := mkRedisConnectionInfo {
  ri_db : Z;
  ri_username : option string;
  ri_password : option string
}.

Record ConnectionInfo := mkConnectionInfo {
  addr : ConnectionAddr;
  redis : RedisConnectionInfo
}.

(** [redis::RedisError]: its [category()] and its rendered text. *)
Record RedisError := mkRedisError {
  category : string;
  re_display : string
}.

(** [redis::Client]: holds its connection info. *)
Record Client := mkClient { connection_info : ConnectionInfo }.

(** [Client::open] on a [ConnectionInfo]: [into_connection_info] is the
    identity there, so it never fails. *)
Definition Client_open (info : ConnectionInfo) : result Client RedisError :=
  Ok (mkClient info).

(** [redis::cluster::ClusterClientBuilder] and the client it builds. *)
Record ClusterClientBuilder := mkClusterClientBuilder {
  initial_nodes : list ConnectionInfo;
  cb_username : option string;
  cb_password : option string
}.

Definition ClusterClientBuilder_new (nodes : list ConnectionInfo) : ClusterClientBuilder :=
  mkClusterClientBuilder nodes None None.

Definition ClusterClientBuilder_username (b : ClusterClientBuilder) (u : string) :=
  mkClusterClientBuilder (initial_nodes b) (Some u) (cb_password b).

Definition ClusterClientBuilder_password (b : ClusterClientBuilder) (p : string) :=
  mkClusterClientBuilder (initial_nodes b) (cb_username b) (Some p).

Record ClusterClient := mkClusterClient {
  cc_initial_nodes : list ConnectionInfo;
  cc_username : option string;
  cc_password : option string
}.

(** Live connections, identified by a handle. *)
Record ConnectionManager := mkConnectionManager { cm_handle : nat }.
Record ClusterConnection := mkClusterConnection { ccn_handle : nat }.

(** [str::split(",")]: an empty string gives one empty piece. *)
Fixpoint split_comma (s : string) : list string :=
  match s with
  | EmptyString => [""]
  | String c r =>
      if Ascii.eqb c "," then "" :: split_comma r
      else match split_comma r with
           | x :: xs => String c x :: xs
           | [] => [String c ""]
           end
  end.

(** ** redis_client.rs *)

Module redis_client.

Definition DEFAULT_REDIS_ENDPOINT : string := "tcp://127.0.0.1:6379".
Definition DEFAULT_REDIS_PORT : Z := 6379.

Definition format_redis_error (e : RedisError) : Error :=
  set_source (Error_new Unexpected (category e)) (re_display e).

Inductive RedisConnection :=
| Single (c : ConnectionManager)
| Cluster (c : ClusterConnection).

(** [conn : OnceCell<RedisConnection>] is [None] while the cell is empty. *)
Record RedisClient := mkRedisClient {
  addresses : string;
  client : option Client;
  cluster_client : option ClusterClient;
  conn : option RedisConnection
}.

(** [impl Debug for RedisClient]. *)
Definition RedisClient_debug (alternate : bool) (c : RedisClient) : string :=
  debug_struct alternate "RedisClient" [("addresses", debug_str (addresses c))] false.

Section Construction.

(** [str::parse::<http::Uri>]: the error is the rendered [InvalidUri]. *)
Variable parse_uri : string -> result Uri string.
(** [ClusterClientBuilder::build]. *)
Variable cluster_build : ClusterClientBuilder -> result ClusterClient RedisError.

Definition get_connection_info (endpoint : string) (s : RedisSettings)
    : result ConnectionInfo Error :=
  match parse_uri endpoint with
  | Err e =>
      Err (set_source
             (with_context (Error_new ConfigInvalid "endpoint is invalid") "endpoint" endpoint)
             e)
  | Ok ep_url =>
      let tcp_host := match host ep_url with Some h => h | None => "127.0.0.1" end in
      let tcp_port := match port_u16 ep_url with Some p => p | None => DEFAULT_REDIS_PORT end in
      let con_addr :=
        match scheme_str ep_url with
        | None => Ok (Tcp tcp_host tcp_port)
        | Some sc =>
            if String.eqb sc "tcp" || String.eqb sc "redis" then Ok (Tcp tcp_host tcp_port)
            else if String.eqb sc "rediss" then Ok (TcpTls tcp_host tcp_port false None)
            else if String.eqb sc "unix" || String.eqb sc "redis+unix" then Ok (Unix (path ep_url))
            else Err (Error_new ConfigInvalid "invalid or unsupported scheme")
        end in
      match con_addr with
      | Err e => Err e
      | Ok a =>
          let redis_info := mkRedisConnectionInfo (settings.db s) (settings.username s)
                              (settings.password s) in
          Ok (mkConnectionInfo a redis_info)
      end
  end.

(** The [for address in addresses.split(",")] loop: fail on the first
    piece that does not parse. *)
Fixpoint collect_connection_infos (pieces : list string) (s : RedisSettings)
    : result (list ConnectionInfo) Error :=
  match pieces with
  | [] => Ok []
  | a :: rest =>
      match get_connection_info a s with
      | Err e => Err e
      | Ok info =>
          match collect_connection_infos rest s with
          | Err e => Err e
          | Ok infos => Ok (info :: infos)
          end
      end
  end.

(** Lines 110-121: the node list, then the shared credentials. *)
Definition cluster_client_builder (s : RedisSettings) (addrs : string)
    : result ClusterClientBuilder Error :=
  match collect_connection_infos (split_comma addrs) s with
  | Err e => Err e
  | Ok cluser_addresses =>
      let b0 := ClusterClientBuilder_new cluser_addresses in
      let b1 := match settings.username s with
                | Some u => ClusterClientBuilder_username b0 u
                | None => b0
                end in
      let b2 := match settings.password s with
                | Some p => ClusterClientBuilder_password b1 p
                | None => b1
                end in
      Ok b2
  end.

Definition new (s : RedisSettings) : result RedisClient Error :=
  match settings.addresses s with
  | Some addrs =>
      match cluster_client_builder s addrs with
      | Err e => Err e
      | Ok b =>
          match map_err format_redis_error (cluster_build b) with
          | Err e => Err e
          | Ok cc => Ok (mkRedisClient addrs None (Some cc) None)
          end
      end
  | None =>
      let a := match settings.address s with
               | Some a => a
               | None => DEFAULT_REDIS_ENDPOINT
               end in
      match get_connection_info a s with
      | Err e => Err e
      | Ok info =>
          match Client_open info with
          | Err re =>
              Err (set_source
                     (with_context
                        (with_context (Error_new ConfigInvalid "invalid or unsupported scheme")
                           "address" a)
                        "db" (string_of_Z (settings.db s)))
                     (re_display re))
          | Ok cl => Ok (mkRedisClient a (Some cl) None None)
          end
      end
  end.

End Construction.

(** ** The lazy connection cell and the dispatcher *)

(** [std::time::Duration]: whole seconds and the sub-second part. *)
Record Duration := mkDuration { secs : N; nanos : N }.
Definition as_secs (d : Duration) : N := secs d.
Definition as_nanos (d : Duration) : N := secs d * 1000000000 + nanos d.

(** The store commands [set] issues. *)
Inductive Command :=
| SET (key : string) (value : list Byte.byte)
| SETEX (key : string) (value : list Byte.byte) (seconds : N).

(** One call: what it returns ([None] for a panic), the client's state
    after it, the setup count, and the commands sent on which connection. *)
Record Run (A : Type) := mkRun {
  ret : option (result A Error);
  client_after : RedisClient;
  attempts_after : nat;
  issued : list (RedisConnection * Command)
}.

Arguments mkRun {A} _ _ _ _.
Arguments ret {A} _.
Arguments client_after {A} _.
Arguments attempts_after {A} _.
Arguments issued {A} _.

Section Connection.

(** The driver's connection setups; the [nat] numbers the setup
    attempts made so far, so that an attempt may fail and a later one
    succeed. *)
Variable ConnectionManager_new : Client -> nat -> result ConnectionManager RedisError.
Variable get_async_connection : ClusterClient -> nat -> result ClusterConnection RedisError.

(** The closure given to [get_or_try_init]; [None] is the panic of
    [unwrap()] on a client with neither template. *)
Definition init_closure (c : RedisClient) (k : nat)
    : option (result RedisConnection RedisError) :=
  match client c with
  | Some cl => Some (map_ok Single (ConnectionManager_new cl k))
  | None =>
      match cluster_client c with
      | Some cc => Some (map_ok Cluster (get_async_connection cc k))
      | None => None
      end
  end.

Definition set_conn (c : RedisClient) (x : RedisConnection) : RedisClient :=
  mkRedisClient (addresses c) (client c) (cluster_client c) (Some x).

(** [connect] run by one caller, with the number of setups made so far.
    [tokio::sync::OnceCell::get_or_try_init] stores the value on
    success and leaves the cell empty on failure. *)
Definition connect (c : RedisClient) (k : nat)
    : option (result RedisConnection Error) * RedisClient * nat :=
  match conn c with
  | Some x => (Some (Ok x), c, k)
  | None =>
      match init_closure c k with
      | None => (None, c, k)
      | Some (Ok x) => (Some (Ok x), set_conn c x, S k)
      | Some (Err e) => (Some (Err (format_redis_error e)), c, S k)
      end
  end.

(** The store's reply to a command on a connection. *)
Variable exec : RedisConnection -> Command -> result unit RedisError.

Definition set (c : RedisClient) (k : nat) (key : string) (value : list Byte.byte)
    (ttl : option Duration) : Run unit :=
  match connect c k with
  | (None, c', k') => mkRun None c' k' []
  | (Some (Err e), c', k') => mkRun (Some (Err e)) c' k' []
  | (Some (Ok cn), c', k') =>
      let issue (on : RedisConnection) (cmd : Command) :=
        mkRun (Some (map_err format_redis_error (exec on cmd))) c' k' [(on, cmd)] in
      match ttl with
      | Some t =>
          match cn with
          | Single m => issue (Single m) (SETEX key value (as_secs t))
          | Cluster m => issue (Cluster m) (SETEX key value (as_secs t))
          end
      | None =>
          match cn with
          | Single m => issue (Single m) (SET key value)
          | Cluster m => issue (Cluster m) (SET key value)
          end
      end
  end.

(** *** Two callers of [connect] on one client, interleaved

    [get_or_try_init] of tokio's [OnceCell]: return the value if the cell
    is set; otherwise wait for the semaphore's single permit.  When the
    semaphore has been closed (the cell was set meanwhile), return the
    value.  The permit holder runs the closure: on success it stores the
    value and closes the semaphore, on failure it gives the permit back. *)
Inductive tstate :=
| TStart
| TAcquire
| TInit
| TDone (r : option (result RedisConnection Error)).

Record shared := mkShared {
  cell : option RedisConnection;
  permit : bool;
  closed : bool;
  setups : nat
}.

Definition tstep (c : RedisClient) (sh : shared) (t : tstate) : option (shared * tstate) :=
  match t with
  | TStart =>
      match cell sh with
      | Some v => Some (sh, TDone (Some (Ok v)))
      | None => Some (sh, TAcquire)
      end
  | TAcquire =>
      if closed sh then
        match cell sh with
        | Some v => Some (sh, TDone (Some (Ok v)))
        | None => None
        end
      else if permit sh then Some (mkShared (cell sh) false (closed sh) (setups sh), TInit)
      else None
  | TInit =>
      match init_closure c (setups sh) with
      | None => Some (mkShared (cell sh) true (closed sh) (setups sh), TDone None)
      | Some (Ok v) => Some (mkShared (Some v) false true (S (setups sh)), TDone (Some (Ok v)))
      | Some (Err e) =>
          Some (mkShared (cell sh) true (closed sh) (S (setups sh)),
                TDone (Some (Err (format_redis_error e))))
      end
  | TDone _ => None
  end.

Record world := mkWorld { sh : shared; th1 : tstate; th2 : tstate }.

Inductive step (c : RedisClient) : world -> world -> Prop :=
| step_th1 : forall w sh' t',
    tstep c (sh w) (th1 w) = Some (sh', t') ->
    step c w (mkWorld sh' t' (th2 w))
| step_th2 : forall w sh' t',
    tstep c (sh w) (th2 w) = Some (sh', t') ->
    step c w (mkWorld sh' (th1 w) t').

Inductive steps (c : RedisClient) : world -> world -> Prop :=
| steps_refl : forall w, steps c w w
| steps_cons : forall w1 w2 w3, step c w1 w2 -> steps c w2 w3 -> steps c w1 w3.

(** Both callers at the start of [connect], the cell still empty. *)
Definition init_world : world :=
  mkWorld (mkShared None true false 0) TStart TStart.

End Connection.

(** The outcome of one [get], [delete] or [append] call: what it returns
    ([None] for a panic), the client after it, and the setup count. *)
Record Call (A : Type) := mkCall {
  call_ret : option (result A Error);
  call_client : RedisClient;
  call_attempts : nat
}.

Arguments mkCall {A} _ _ _.
Arguments call_ret {A} _.
Arguments call_client {A} _.
Arguments call_attempts {A} _.

Section Operations.

Variable ConnectionManager_new : Client -> nat -> result ConnectionManager RedisError.
Variable get_async_connection : ClusterClient -> nat -> result ClusterConnection RedisError.

(** The store's replies to [GET], [DEL] and [APPEND], already decoded to
    the types the code asks for. *)
Variable exec_get : RedisConnection -> string -> result (option (list Byte.byte)) RedisError.
Variable exec_del : RedisConnection -> string -> result unit RedisError.
Variable exec_append : RedisConnection -> string -> list Byte.byte -> result unit RedisError.

Definition get (c : RedisClient) (k : nat) (key : string) : Call (option (list Byte.byte)) :=
  match connect ConnectionManager_new get_async_connection c k with
  | (None, c', k') => mkCall None c' k'
  | (Some (Err e), c', k') => mkCall (Some (Err e)) c' k'
  | (Some (Ok cn), c', k') =>
      match cn with
      | Single m => mkCall (Some (map_err format_redis_error (exec_get (Single m) key))) c' k'
      | Cluster m => mkCall (Some (map_err format_redis_error (exec_get (Cluster m) key))) c' k'
      end
  end.

Definition delete (c : RedisClient) (k : nat) (key : string) : Call unit :=
  match connect ConnectionManager_new get_async_connection c k with
  | (None, c', k') => mkCall None c' k'
  | (Some (Err e), c', k') => mkCall (Some (Err e)) c' k'
  | (Some (Ok cn), c', k') =>
      match cn with
      | Single m => mkCall (Some (map_err format_redis_error (exec_del (Single m) key))) c' k'
      | Cluster m => mkCall (Some (map_err format_redis_error (exec_del (Cluster m) key))) c' k'
      end
  end.

Definition append (c : RedisClient) (k : nat) (key : string) (value : list Byte.byte) : Call unit :=
  match connect ConnectionManager_new get_async_connection c k with
  | (None, c', k') => mkCall None c' k'
  | (Some (Err e), c', k') => mkCall (Some (Err e)) c' k'
  | (Some (Ok cn), c', k') =>
      match cn with
      | Single m =>
          mkCall (Some (map_err format_redis_error (exec_append (Single m) key value))) c' k'
      | Cluster m =>
          mkCall (Some (map_err format_redis_error (exec_append (Cluster m) key value))) c' k'
      end
  end.

End Operations.


End redis_client.

(** ** Concrete instances of the external parts, for runs on sample inputs *)

Module samples.

(** Text before the first [c] and, when [c] occurs, the text after it. *)
Fixpoint break_at (c : ascii) (s : string) : string * option string :=
  match s with
  | EmptyString => ("", None)
  | String x r =>
      if Ascii.eqb x c then ("", Some r)
      else let '(a, b) := break_at c r in (String x a, b)
  end.

(** Text after the last [c] (the whole text when [c] does not occur). *)
Fixpoint after_last_from (c : ascii) (s acc : string) : string :=
  match s with
  | EmptyString => acc
  | String x r => if Ascii.eqb x c then after_last_from c r r else after_last_from c r acc
  end.

Definition after_last (c : ascii) (s : string) : string := after_last_from c s s.

Fixpoint parse_digits (s : string) (acc : Z) : option Z :=
  match s with
  | EmptyString => Some acc
  | String c r =>
      let n := Z.of_nat (nat_of_ascii c) in
      if (48 <=? n)%Z && (n <=? 57)%Z then parse_digits r (acc * 10 + (n - 48)) else None
  end.

(** Number of occurrences of [c] in [s]. *)
Fixpoint occurrences (c : ascii) (s : string) : nat :=
  match s with
  | EmptyString => 0
  | String x r => (if Ascii.eqb x c then 1 else 0) + occurrences c r
  end.

(** Bytes [http] refuses anywhere in a URI: controls, space, DEL and
    non-ASCII (some further punctuation it also refuses is accepted
    here). *)
Definition uri_char_ok (c : ascii) : bool :=
  let n := nat_of_ascii c in Nat.leb 33 n && Nat.ltb n 127.

Definition scheme_char_ok (c : ascii) : bool :=
  let n := nat_of_ascii c in
  (Nat.leb 97 n && Nat.leb n 122) || (Nat.leb 65 n && Nat.leb n 90)
  || (Nat.leb 48 n && Nat.leb n 57) || Nat.eqb n 43 || Nat.eqb n 45 || Nat.eqb n 46.

Fixpoint all_chars (f : ascii -> bool) (s : string) : bool :=
  match s with
  | EmptyString => true
  | String c r => f c && all_chars f r
  end.

(** [Uri::port_u16]: [u16::from_str] of the text after the colon, [None]
    when it is not a [u16] ([http] itself does not check the port). *)
Definition port_u16_of (ps : string) : option Z :=
  let ps' := match ps with
             | String c r => if Ascii.eqb c "+" then r else ps
             | EmptyString => ps
             end in
  if String.eqb ps' "" then None
  else match parse_digits ps' 0 with
       | Some n => if (65535 <? n)%Z then None else Some n
       | None => None
       end.

(** [Authority::parse] (IPv6 literals left out): at most one colon after
    the user information, and no [@] at the end; the host may be empty. *)
Definition parse_authority (auth : string) : result (option string * option Z) string :=
  if negb (String.eqb auth "") && String.eqb (after_last "@" auth) "" then Err "invalid authority"
  else
    let hostport := after_last "@" auth in
    if Nat.ltb 1 (occurrences ":" hostport) then Err "invalid authority"
    else
      match break_at ":" hostport with
      | (h, None) => Ok (Some h, None)
      | (h, Some ps) => Ok (Some h, port_u16_of ps)
      end.

(** A small URI parser in the shape of [http::Uri] for
    [scheme://[userinfo@]host[:port][/path]], a path alone
    ([/path]) or an authority alone ([host[:port]]).  As [http] does, it
    refuses the empty string, a byte outside the URI characters, an
    authority with two ports or ending in [@], and a scheme with an empty
    authority ([unix:///path]); a port that is not a [u16] is kept as
    no port. *)
Definition sample_parse (s : string) : result Uri string :=
  if String.eqb s "" then Err "empty string"
  else if negb (all_chars uri_char_ok s) then Err "invalid uri character"
  else
    match String.index 0 "://" s with
    | Some i =>
        let sch := substring 0 i s in
        let rest := substring (i + 3) (String.length s - (i + 3)) s in
        if String.eqb sch "" || negb (all_chars scheme_char_ok sch) then Err "invalid format"
        else
          let '(auth, p) :=
            match break_at "/" rest with
            | (a, Some r) => (a, "/" ++ r)
            | (a, None) => (a, "/")
            end in
          if String.eqb auth "" then Err "invalid format"
          else
            match parse_authority auth with
            | Err e => Err e
            | Ok (h, port) => Ok (mkUri (Some sch) h port p)
            end
    | None =>
        match s with
        | String c _ =>
            if Ascii.eqb c "/" then Ok (mkUri None None None s)
            else if Nat.ltb 0 (occurrences "/" s) then Err "invalid format"
            else
              match parse_authority s with
              | Err e => Err e
              | Ok (h, port) => Ok (mkUri None h port "")
              end
        | EmptyString => Err "empty string"
        end
    end.

(** [ClusterClientBuilder::build] on its common paths: no nodes, or a
    Unix-socket node, is refused. *)
Definition sample_cluster_build (b : ClusterClientBuilder) : result ClusterClient RedisError :=
  match initial_nodes b with
  | [] => Err (mkRedisError "invalid client config" "Initial nodes can't be empty")
  | nodes =>
      if existsb (fun n => match addr n with Unix _ => true | _ => false end) nodes
      then Err (mkRedisError "invalid client config"
                  "This functionality is not supported for unix socket")
      else Ok (mkClusterClient nodes (cb_username b) (cb_password b))
  end.

(** Drivers whose setups always succeed, and one whose first setup fails. *)
Definition cm_ok (cl : Client) (k : nat) : result ConnectionManager RedisError :=
  Ok (mkConnectionManager k).
Definition cluster_ok (cc : ClusterClient) (k : nat) : result ClusterConnection RedisError :=
  Ok (mkClusterConnection k).
Definition refused : RedisError := mkRedisError "io error" "Connection refused (os error 111)".
Definition cluster_fail_first (cc : ClusterClient) (k : nat)
    : result ClusterConnection RedisError :=
  match k with
  | O => Err refused
  | S _ => Ok (mkClusterConnection k)
  end.
Definition exec_ok (cn : redis_client.RedisConnection) (cmd : redis_client.Command)
    : result unit RedisError := Ok tt.

Definition no_settings : RedisSettings := mkSettings None None None None 0.

End samples.

Import redis_client samples.

Definition with_address (s : RedisSettings) (a : option string) : RedisSettings :=
  mkSettings a (settings.addresses s) (settings.username s) (settings.password s) (settings.db s).

Definition with_password (s : RedisSettings) (p : option string) : RedisSettings :=
  mkSettings (settings.address s) (settings.addresses s) (settings.username s) p (settings.db s).

(** * Properties *)

(** Unfolding [get_connection_info] once the URI has parsed. *)
Lemma get_connection_info_parsed (parse_uri : string -> result Uri string) ep s u :
  parse_uri ep = Ok u ->
  get_connection_info parse_uri ep s =
  match (match scheme_str u with
         | None => Ok (Tcp (match host u with Some h => h | None => "127.0.0.1" end)
                           (match port_u16 u with Some p => p | None => 6379%Z end))
         | Some sc =>
             if String.eqb sc "tcp" || String.eqb sc "redis" then
               Ok (Tcp (match host u with Some h => h | None => "127.0.0.1" end)
                       (match port_u16 u with Some p => p | None => 6379%Z end))
             else if String.eqb sc "rediss" then
               Ok (TcpTls (match host u with Some h => h | None => "127.0.0.1" end)
                          (match port_u16 u with Some p => p | None => 6379%Z end) false None)
             else if String.eqb sc "unix" || String.eqb sc "redis+unix" then Ok (Unix (path u))
             else Err (Error_new ConfigInvalid "invalid or unsupported scheme")
         end) with
  | Err e => Err e
  | Ok a => Ok (mkConnectionInfo a (mkRedisConnectionInfo (settings.db s) (settings.username s)
                                      (settings.password s)))
  end.
Proof. intros H. unfold get_connection_info. rewrite H. reflexivity. Qed.

(** Endpoint parsing and the cluster builder read only [db], [username]
    and [password] of the settings. *)
Lemma get_connection_info_same_creds (parse_uri : string -> result Uri string) ep s s' :
  settings.db s = settings.db s' ->
  settings.username s = settings.username s' ->
  settings.password s = settings.password s' ->
  get_connection_info parse_uri ep s = get_connection_info parse_uri ep s'.
Proof.
  intros Hd Hu Hp. unfold get_connection_info. rewrite Hd, Hu, Hp. reflexivity.
Qed.

Lemma cluster_client_builder_same_creds (parse_uri : string -> result Uri string) s s' a :
  settings.db s = settings.db s' ->
  settings.username s = settings.username s' ->
  settings.password s = settings.password s' ->
  cluster_client_builder parse_uri s a = cluster_client_builder parse_uri s' a.
Proof.
  intros Hd Hu Hp. unfold cluster_client_builder.
  assert (Hc : forall l, collect_connection_infos parse_uri l s
                         = collect_connection_infos parse_uri l s').
  { induction l as [|x l IH]; simpl; [reflexivity|].
    rewrite (get_connection_info_same_creds parse_uri x s s' Hd Hu Hp), IH. reflexivity. }
  rewrite Hc, Hu, Hp. reflexivity.
Qed.

(** ** C1 *)

(** Claim C1: for an endpoint that parses as a URI, the scheme [tcp],
    [redis] or no scheme gives a TCP address with host defaulting to
    [127.0.0.1] and port to 6379; [rediss] gives a TLS address with the same
    defaults, no TLS parameters and [insecure = false]; [unix] and
    [redis+unix] give a Unix-socket address on the URI's path.  Db, username
    and password are copied from the settings. *)
Theorem get_connection_info_scheme_mapping :
  forall (parse_uri : string -> result Uri string) (endpoint : string)
         (s : RedisSettings) (u : Uri),
    parse_uri endpoint = Ok u ->
    let h := match host u with Some h => h | None => "127.0.0.1" end in
    let p := match port_u16 u with Some p => p | None => 6379%Z end in
    let info a := mkConnectionInfo a
                    (mkRedisConnectionInfo (settings.db s) (settings.username s)
                       (settings.password s)) in
    ((scheme_str u = None \/ scheme_str u = Some "tcp" \/ scheme_str u = Some "redis") ->
     get_connection_info parse_uri endpoint s = Ok (info (Tcp h p))) /\
    (scheme_str u = Some "rediss" ->
     get_connection_info parse_uri endpoint s = Ok (info (TcpTls h p false None))) /\
    ((scheme_str u = Some "unix" \/ scheme_str u = Some "redis+unix") ->
     get_connection_info parse_uri endpoint s = Ok (info (Unix (path u)))).
Proof.
  intros parse_uri endpoint s u Hp h p info.
  rewrite (get_connection_info_parsed parse_uri endpoint s u Hp).
  split; [|split].
  - intros [H|[H|H]]; rewrite H; reflexivity.
  - intros H; rewrite H; reflexivity.
  - intros [H|H]; rewrite H; reflexivity.
Qed.

(** ** C2 *)

(** Claim C2: when [addresses] is present, [new] takes the cluster path
    whatever [address] holds, and a client it returns has the cluster
    template; otherwise a client it returns is single-node, built from
    [address] or the default endpoint; with neither set (and the default
    endpoint parsing with scheme [tcp]) construction succeeds on
    [tcp://127.0.0.1:6379]. *)
Theorem new_mode_selection :
  forall (parse_uri : string -> result Uri string)
         (cluster_build : ClusterClientBuilder -> result ClusterClient RedisError)
         (s : RedisSettings),
    (forall a, settings.addresses s = Some a ->
       (forall adr, new parse_uri cluster_build (with_address s adr)
                    = new parse_uri cluster_build s) /\
       (forall c, new parse_uri cluster_build s = Ok c ->
                  client c = None /\ cluster_client c <> None)) /\
    (settings.addresses s = None ->
     let a := match settings.address s with Some a => a | None => DEFAULT_REDIS_ENDPOINT end in
     forall c, new parse_uri cluster_build s = Ok c ->
       cluster_client c = None /\ addresses c = a /\
       exists info, get_connection_info parse_uri a s = Ok info /\
                    client c = Some (mkClient info)) /\
    (settings.addresses s = None -> settings.address s = None ->
     forall u, parse_uri "tcp://127.0.0.1:6379" = Ok u -> scheme_str u = Some "tcp" ->
       exists c, new parse_uri cluster_build s = Ok c /\
                 addresses c = "tcp://127.0.0.1:6379" /\ client c <> None /\
                 cluster_client c = None).
Proof.
  intros parse_uri cluster_build s. split; [|split].
  - intros a Ha. split.
    + intros adr. unfold new. simpl. rewrite Ha.
      rewrite (cluster_client_builder_same_creds parse_uri (with_address s adr) s a)
        by reflexivity.
      reflexivity.
    + intros c Hn. unfold new in Hn. rewrite Ha in Hn.
      destruct (cluster_client_builder parse_uri s a) as [b|e]; [|discriminate].
      destruct (cluster_build b) as [cc|re]; simpl in Hn; inversion Hn; subst.
      simpl. split; [reflexivity | discriminate].
  - intros Hn a c Hc. unfold new in Hc. rewrite Hn in Hc. fold a in Hc.
    destruct (get_connection_info parse_uri a s) as [info|e]; [|discriminate].
    simpl in Hc. inversion Hc; subst. simpl.
    split; [reflexivity | split; [reflexivity | exists info; split; reflexivity]].
  - intros Hn Ha u Hp Hs. unfold new. rewrite Hn, Ha. cbv beta iota zeta.
    rewrite (get_connection_info_parsed parse_uri DEFAULT_REDIS_ENDPOINT s u Hp), Hs. simpl.
    eexists; split; [reflexivity | repeat split; simpl; congruence].
Qed.

(** ** C3 *)

(** Claim C3: a client returned by [new] has exactly one of the single-node
    and cluster templates, and its connection cell is empty. *)
Theorem new_exactly_one_template :
  forall (parse_uri : string -> result Uri string)
         (cluster_build : ClusterClientBuilder -> result ClusterClient RedisError)
         (s : RedisSettings) (c : RedisClient),
    new parse_uri cluster_build s = Ok c ->
    ((client c <> None /\ cluster_client c = None) \/
     (client c = None /\ cluster_client c <> None)) /\
    conn c = None.
Proof.
  intros parse_uri cluster_build s c Hc. unfold new in Hc.
  destruct (settings.addresses s) as [a|].
  - destruct (cluster_client_builder parse_uri s a) as [b|e]; [|discriminate].
    destruct (cluster_build b) as [cc|re]; simpl in Hc; inversion Hc; subst.
    simpl. split; [right; split; [reflexivity | discriminate] | reflexivity].
  - destruct (get_connection_info parse_uri _ s) as [info|e]; [|discriminate].
    simpl in Hc. inversion Hc; subst. simpl.
    split; [left; split; [discriminate | reflexivity] | reflexivity].
Qed.

Lemma get_connection_info_scheme_mapping_witness :
  sample_parse "rediss://cache:7000"
    = Ok (mkUri (Some "rediss") (Some "cache") (Some 7000%Z) "/") /\
  get_connection_info sample_parse "rediss://cache:7000" no_settings
    = Ok (mkConnectionInfo (TcpTls "cache" 7000 false None) (mkRedisConnectionInfo 0 None None)).
Proof.
  split; [reflexivity|].
  exact (proj1 (proj2 (get_connection_info_scheme_mapping sample_parse "rediss://cache:7000"
           no_settings (mkUri (Some "rediss") (Some "cache") (Some 7000%Z) "/") eq_refl)) eq_refl).
Defined.

Lemma new_mode_selection_witness :
  exists c, new sample_parse sample_cluster_build no_settings = Ok c /\
            addresses c = "tcp://127.0.0.1:6379" /\ client c <> None /\ cluster_client c = None.
Proof.
  exact (proj2 (proj2 (new_mode_selection sample_parse sample_cluster_build no_settings))
           eq_refl eq_refl (mkUri (Some "tcp") (Some "127.0.0.1") (Some 6379%Z) "/")
           eq_refl eq_refl).
Defined.

Definition cluster_settings : RedisSettings :=
  mkSettings (Some "tcp://ignored:1") (Some "tcp://a:7000,tcp://b:7001") (Some "app")
    (Some "hunter2") 0.

Lemma new_exactly_one_template_witness :
  exists c, new sample_parse sample_cluster_build cluster_settings = Ok c /\
    (((client c <> None /\ cluster_client c = None) \/
      (client c = None /\ cluster_client c <> None)) /\ conn c = None).
Proof.
  eexists. split; [reflexivity|].
  apply (new_exactly_one_template sample_parse sample_cluster_build cluster_settings).
  reflexivity.
Defined.

(** ** C4 *)

Lemma collect_connection_infos_creds (parse_uri : string -> result Uri string) s :
  forall l infos,
    collect_connection_infos parse_uri l s = Ok infos ->
    Forall (fun n => ri_username (redis n) = settings.username s /\
                     ri_password (redis n) = settings.password s) infos /\
    length infos = length l.
Proof.
  induction l as [|x l IH]; intros infos H; simpl in H.
  - inversion H; subst. split; [constructor | reflexivity].
  - unfold get_connection_info in H.
    destruct (parse_uri x) as [u|pe]; [|discriminate].
    destruct (match scheme_str u with
              | Some sc => _
              | None => _
              end) as [a|e] eqn:Ha; [|discriminate].
    destruct (collect_connection_infos parse_uri l s) as [rest|e] eqn:Hr; [|discriminate].
    inversion H; subst.
    destruct (IH rest eq_refl) as [Hf Hl].
    split; [constructor; [split; reflexivity | exact Hf] | simpl; rewrite Hl; reflexivity].
Qed.

(** Claim C4, as the code has it: in cluster mode [new] gives the shared
    username and password to the cluster builder once each (when present),
    and every per-node connection descriptor carries the same username and
    password copied from the settings; the cluster client is the one built
    from that builder. *)
Theorem new_cluster_credentials :
  forall (parse_uri : string -> result Uri string)
         (cluster_build : ClusterClientBuilder -> result ClusterClient RedisError)
         (s : RedisSettings) (a : string),
    settings.addresses s = Some a ->
    (forall b, cluster_client_builder parse_uri s a = Ok b ->
       cb_username b = settings.username s /\ cb_password b = settings.password s /\
       Forall (fun n => ri_username (redis n) = settings.username s /\
                        ri_password (redis n) = settings.password s) (initial_nodes b) /\
       length (initial_nodes b) = length (split_comma a)) /\
    (forall c, new parse_uri cluster_build s = Ok c ->
       exists b cc, cluster_client_builder parse_uri s a = Ok b /\
                    cluster_build b = Ok cc /\ cluster_client c = Some cc).
Proof.
  intros parse_uri cluster_build s a Ha. split.
  - intros b Hb. unfold cluster_client_builder in Hb.
    destruct (collect_connection_infos parse_uri (split_comma a) s) as [infos|e] eqn:Hc;
      [|discriminate].
    destruct (collect_connection_infos_creds parse_uri s _ _ Hc) as [Hf Hl].
    inversion Hb; subst; clear Hb.
    destruct (settings.username s) as [u|], (settings.password s) as [p|];
      simpl; repeat split; assumption.
  - intros c Hc. unfold new in Hc. rewrite Ha in Hc.
    destruct (cluster_client_builder parse_uri s a) as [b|e]; [|discriminate].
    destruct (cluster_build b) as [cc|re] eqn:Hb; simpl in Hc; [|discriminate].
    inversion Hc; subst. exists b, cc. repeat split; assumption.
Qed.

Lemma new_cluster_credentials_witness :
  settings.addresses cluster_settings = Some "tcp://a:7000,tcp://b:7001" /\
  exists c, new sample_parse sample_cluster_build cluster_settings = Ok c /\
    exists b cc, cluster_client_builder sample_parse cluster_settings "tcp://a:7000,tcp://b:7001"
                   = Ok b /\ sample_cluster_build b = Ok cc /\ cluster_client c = Some cc.
Proof.
  split; [reflexivity|].
  eexists. split; [reflexivity|].
  apply (proj2 (new_cluster_credentials sample_parse sample_cluster_build cluster_settings
                  "tcp://a:7000,tcp://b:7001" eq_refl)).
  reflexivity.
Defined.

(** Claim C4 as stated says the per-node descriptors do not carry the
    credentials; with a password set, both nodes handed to the cluster
    builder carry it. *)
Lemma new_cluster_credentials_counterexample :
  exists b, cluster_client_builder sample_parse cluster_settings "tcp://a:7000,tcp://b:7001" = Ok b /\
    length (initial_nodes b) = 2 /\
    Forall (fun n => ri_username (redis n) = Some "app" /\ ri_password (redis n) = Some "hunter2")
      (initial_nodes b).
Proof.
  eexists. split; [vm_compute; reflexivity|].
  split; [reflexivity|]. repeat constructor.
Qed.

(** ** C5 *)

(** Claim C5: an endpoint with an unsupported scheme ([http]) fails with
    kind [ConfigInvalid] and message [invalid or unsupported scheme], but
    the error carries no context: the endpoint is not attached, neither by
    [get_connection_info] nor by [new] on the single-node path. *)
Theorem unsupported_scheme_error_has_no_context :
  get_connection_info sample_parse "http://example.com:6379" no_settings
    = Err (mkError ConfigInvalid "invalid or unsupported scheme" [] None) /\
  new sample_parse sample_cluster_build (with_address no_settings (Some "http://example.com:6379"))
    = Err (mkError ConfigInvalid "invalid or unsupported scheme" [] None).
Proof. split; vm_compute; reflexivity. Qed.

(** ** C10 *)

(** Claim C10: with [addresses = Some ""], [new] takes the cluster path,
    the single piece [""] goes to the URI parser, and the parser's refusal
    of the empty string comes back as the [ConfigInvalid] error
    [endpoint is invalid] on that piece; no client is returned. *)
Theorem new_empty_addresses_config_invalid :
  forall (parse_uri : string -> result Uri string)
         (cluster_build : ClusterClientBuilder -> result ClusterClient RedisError)
         (s : RedisSettings) (pe : string),
    settings.addresses s = Some "" ->
    parse_uri "" = Err pe ->
    new parse_uri cluster_build s
      = Err (set_source (with_context (Error_new ConfigInvalid "endpoint is invalid") "endpoint" "")
               pe) /\
    kind (set_source (with_context (Error_new ConfigInvalid "endpoint is invalid") "endpoint" "")
            pe) = ConfigInvalid.
Proof.
  intros parse_uri cluster_build s pe Ha Hp.
  unfold new, cluster_client_builder. rewrite Ha. simpl.
  unfold get_connection_info. rewrite Hp. split; reflexivity.
Qed.

Lemma new_empty_addresses_config_invalid_witness :
  settings.addresses (mkSettings (Some "tcp://127.0.0.1:6379") (Some "") None None 0) = Some "" /\
  sample_parse "" = Err "empty string" /\
  new sample_parse sample_cluster_build (mkSettings (Some "tcp://127.0.0.1:6379") (Some "") None None 0)
    = Err (set_source (with_context (Error_new ConfigInvalid "endpoint is invalid") "endpoint" "")
             "empty string") /\
  kind (set_source (with_context (Error_new ConfigInvalid "endpoint is invalid") "endpoint" "")
          "empty string") = ConfigInvalid.
Proof.
  split; [reflexivity|]. split; [reflexivity|].
  apply (new_empty_addresses_config_invalid sample_parse sample_cluster_build
           (mkSettings (Some "tcp://127.0.0.1:6379") (Some "") None None 0) "empty string");
    reflexivity.
Defined.

(** ** C6 *)

Lemma as_secs_whole_seconds (d : Duration) :
  (nanos d < 1000000000)%N -> as_secs d = (as_nanos d / 1000000000)%N.
Proof.
  intros H. unfold as_secs, as_nanos.
  rewrite N.div_add_l by discriminate.
  rewrite (N.div_small (nanos d) 1000000000 H). rewrite N.add_0_r. reflexivity.
Qed.

(** Claim C6: once [connect] has produced a connection, [set] sends one
    command on it: [SETEX] with the ttl's whole seconds (the duration's
    nanoseconds divided by 10^9, rounded down) when a ttl is given, plain
    [SET] otherwise; the command does not depend on whether the
    connection is single-node or cluster, and the store's reply is
    returned through [format_redis_error]. *)
Theorem set_dispatch_ttl :
  forall (CM : Client -> nat -> result ConnectionManager RedisError)
         (GA : ClusterClient -> nat -> result ClusterConnection RedisError)
         (exec : RedisConnection -> Command -> result unit RedisError)
         (c : RedisClient) (k : nat) (key : string) (value : list Byte.byte)
         (ttl : option Duration) (cn : RedisConnection) (c' : RedisClient) (k' : nat),
    connect CM GA c k = (Some (Ok cn), c', k') ->
    (forall t, ttl = Some t -> (nanos t < 1000000000)%N) ->
    let cmd := match ttl with
               | Some t => SETEX key value (as_nanos t / 1000000000)%N
               | None => SET key value
               end in
    issued (set CM GA exec c k key value ttl) = [(cn, cmd)] /\
    ret (set CM GA exec c k key value ttl) = Some (map_err format_redis_error (exec cn cmd)) /\
    client_after (set CM GA exec c k key value ttl) = c' /\
    attempts_after (set CM GA exec c k key value ttl) = k'.
Proof.
  intros CM GA exec c k key value ttl cn c' k' Hc Ht cmd.
  unfold set. rewrite Hc. subst cmd.
  destruct ttl as [t|].
  - rewrite <- (as_secs_whole_seconds t (Ht t eq_refl)).
    destruct cn; repeat split.
  - destruct cn; repeat split.
Qed.

Definition single_info : ConnectionInfo :=
  mkConnectionInfo (Tcp "127.0.0.1" 6379) (mkRedisConnectionInfo 0 None None).

Definition single_client : RedisClient :=
  mkRedisClient "tcp://127.0.0.1:6379" (Some (mkClient single_info)) None None.

Lemma set_dispatch_ttl_witness :
  connect cm_ok cluster_ok single_client 0
    = (Some (Ok (Single (mkConnectionManager 0))),
       set_conn single_client (Single (mkConnectionManager 0)), 1) /\
  (forall t, Some (mkDuration 2 750000000) = Some t -> (nanos t < 1000000000)%N) /\
  issued (set cm_ok cluster_ok exec_ok single_client 0 "k" [] (Some (mkDuration 2 750000000)))
    = [(Single (mkConnectionManager 0), SETEX "k" [] 2)].
Proof.
  assert (Hc : connect cm_ok cluster_ok single_client 0
               = (Some (Ok (Single (mkConnectionManager 0))),
                  set_conn single_client (Single (mkConnectionManager 0)), 1)) by reflexivity.
  assert (Ht : forall t, Some (mkDuration 2 750000000) = Some t -> (nanos t < 1000000000)%N).
  { intros t H. inversion H. reflexivity. }
  split; [exact Hc|]. split; [exact Ht|].
  exact (proj1 (set_dispatch_ttl cm_ok cluster_ok exec_ok single_client 0 "k" []
                  (Some (mkDuration 2 750000000)) _ _ _ Hc Ht)).
Defined.

(** ** C7 *)

(** Claim C7: when the setup run by [connect] on an empty cell fails, the
    caller gets the driver error as an [Unexpected] error whose message is
    the driver's category, the client (and its cell) is left as it was,
    and the next call to [connect] runs the setup again and returns its
    outcome, storing the connection when it succeeds. *)
Theorem connect_failure_not_poisoned :
  forall (CM : Client -> nat -> result ConnectionManager RedisError)
         (GA : ClusterClient -> nat -> result ClusterConnection RedisError)
         (c : RedisClient) (k : nat) (e : RedisError),
    conn c = None ->
    init_closure CM GA c k = Some (Err e) ->
    connect CM GA c k = (Some (Err (format_redis_error e)), c, S k) /\
    kind (format_redis_error e) = Unexpected /\
    message (format_redis_error e) = category e /\
    (forall r, init_closure CM GA c (S k) = Some r ->
       connect CM GA c (S k)
       = (Some (map_err format_redis_error r),
          match r with Ok x => set_conn c x | Err _ => c end, S (S k))).
Proof.
  intros CM GA c k e Hn Hi.
  unfold connect. rewrite Hn, Hi.
  split; [reflexivity | split; [reflexivity | split; [reflexivity|]]].
  intros r Hr. rewrite Hr. destruct r; reflexivity.
Qed.

Definition cluster_template : ClusterClient :=
  mkClusterClient [mkConnectionInfo (Tcp "a" 7000) (mkRedisConnectionInfo 0 None None)] None None.

Definition cluster_client_empty : RedisClient :=
  mkRedisClient "tcp://a:7000" None (Some cluster_template) None.

Lemma connect_failure_not_poisoned_witness :
  conn cluster_client_empty = None /\
  init_closure cm_ok cluster_fail_first cluster_client_empty 0 = Some (Err refused) /\
  connect cm_ok cluster_fail_first cluster_client_empty 0
    = (Some (Err (format_redis_error refused)), cluster_client_empty, 1).
Proof.
  split; [reflexivity|]. split; [reflexivity|].
  exact (proj1 (connect_failure_not_poisoned cm_ok cluster_fail_first cluster_client_empty 0
                  refused eq_refl eq_refl)).
Defined.

(** ** C8 *)

(** Settings whose address embeds the password as URI user information. *)
Definition leak_settings : RedisSettings :=
  mkSettings (Some "redis://:hunter2@db.internal:6379") None None (Some "hunter2") 0.

(** The same, with a space in the host: [http::Uri] refuses the byte. *)
Definition leak_settings_bad_host : RedisSettings :=
  mkSettings (Some "redis://:hunter2@db internal:6379") None None (Some "hunter2") 0.

(** An error of [connect], [get], [set], [delete] or [append] is a driver
    error passed through [format_redis_error]. *)
Lemma connect_err_wraps CM GA c k e c' k' :
  connect CM GA c k = (Some (Err e), c', k') -> exists re, e = format_redis_error re.
Proof.
  unfold connect. destruct (conn c); [discriminate|].
  destruct (init_closure CM GA c k) as [[x|re]|]; try discriminate.
  intros H. inversion H. exists re. reflexivity.
Qed.

Lemma map_err_format_wraps {A : Type} (r : result A RedisError) e :
  map_err format_redis_error r = Err e -> exists re, e = format_redis_error re.
Proof. destruct r as [a|re]; simpl; intros H; inversion H. exists re. reflexivity. Qed.

(** Claim C8 as stated: the password value does show in the Debug form of
    the settings, of the client, and in an endpoint error, when the address
    string contains it. *)
Lemma password_rendered_counterexample :
  settings.password leak_settings = Some "hunter2" /\
  String.index 0 "hunter2" (RedisSettings_debug false leak_settings) <> None /\
  (exists c, new sample_parse sample_cluster_build leak_settings = Ok c /\
             String.index 0 "hunter2" (RedisClient_debug false c) <> None) /\
  (exists e, new sample_parse sample_cluster_build leak_settings_bad_host = Err e /\
             String.index 0 "hunter2" (Error_display e) <> None /\
             String.index 0 "hunter2" (Error_debug e) <> None).
Proof.
  split; [reflexivity|]. split; [vm_compute; discriminate|].
  split.
  - eexists. split; [reflexivity | vm_compute; discriminate].
  - eexists. split; [reflexivity | split; vm_compute; discriminate].
Qed.

(** Claim C8, as the code has it: the settings' password field itself is
    never rendered.  The Debug forms of the settings ([{:?}] and [{:#?}])
    are the same for any two password values; the Debug form of a client
    shows only the endpoint string taken from [addresses] or [address] (or
    the default); the errors of endpoint parsing are the same for any
    password; every other error of [new], and every error of [connect],
    [get], [set], [delete] and [append], wraps a driver error through
    [format_redis_error]. *)
Theorem password_field_not_rendered :
  forall (parse_uri : string -> result Uri string)
         (cluster_build : ClusterClientBuilder -> result ClusterClient RedisError)
         (CM : Client -> nat -> result ConnectionManager RedisError)
         (GA : ClusterClient -> nat -> result ClusterConnection RedisError)
         (es : RedisConnection -> Command -> result unit RedisError)
         (eg : RedisConnection -> string -> result (option (list Byte.byte)) RedisError)
         (ed : RedisConnection -> string -> result unit RedisError)
         (ea : RedisConnection -> string -> list Byte.byte -> result unit RedisError)
         (s : RedisSettings) (p q : string),
    (forall alternate,
       RedisSettings_debug alternate (with_password s (Some p))
       = RedisSettings_debug alternate (with_password s (Some q))) /\
    (forall ep e, get_connection_info parse_uri ep (with_password s (Some p)) = Err e ->
                  get_connection_info parse_uri ep (with_password s (Some q)) = Err e) /\
    (forall c, new parse_uri cluster_build s = Ok c ->
       forall alternate,
       RedisClient_debug alternate c
       = debug_struct alternate "RedisClient"
           [("addresses",
             debug_str (match settings.addresses s with
                        | Some a => a
                        | None => match settings.address s with
                                  | Some a => a
                                  | None => DEFAULT_REDIS_ENDPOINT
                                  end
                        end))] false) /\
    (forall e, new parse_uri cluster_build s = Err e ->
       (exists ep, get_connection_info parse_uri ep s = Err e) \/
       (exists re, e = format_redis_error re)) /\
    (forall c k key value ttl e,
       (forall c' k', connect CM GA c k = (Some (Err e), c', k') ->
          exists re, e = format_redis_error re) /\
       (ret (set CM GA es c k key value ttl) = Some (Err e) -> exists re, e = format_redis_error re) /\
       (call_ret (get CM GA eg c k key) = Some (Err e) -> exists re, e = format_redis_error re) /\
       (call_ret (delete CM GA ed c k key) = Some (Err e) -> exists re, e = format_redis_error re) /\
       (call_ret (append CM GA ea c k key value) = Some (Err e) ->
          exists re, e = format_redis_error re)).
Proof.
  intros parse_uri cluster_build CM GA es eg ed ea s p q. split; [|split; [|split; [|split]]].
  - reflexivity.
  - intros ep e H. unfold get_connection_info in *. simpl in *.
    destruct (parse_uri ep) as [u|pe]; [|exact H].
    destruct (match scheme_str u with Some sc => _ | None => _ end); [discriminate | exact H].
  - intros c Hc. unfold new in Hc.
    destruct (settings.addresses s) as [a|].
    + destruct (cluster_client_builder parse_uri s a); [|discriminate].
      destruct (cluster_build _); simpl in Hc; inversion Hc; reflexivity.
    + destruct (get_connection_info parse_uri _ s); [|discriminate].
      simpl in Hc. inversion Hc; reflexivity.
  - intros e He. unfold new in He.
    destruct (settings.addresses s) as [a|].
    + unfold cluster_client_builder in He.
      destruct (collect_connection_infos parse_uri (split_comma a) s) as [infos|e'] eqn:Hc.
      * destruct (cluster_build _) as [cc|re]; simpl in He; inversion He.
        right. exists re. reflexivity.
      * inversion He; subst. left.
        clear He. revert Hc. generalize (split_comma a).
        induction l as [|x l IH]; simpl; intros Hc; [discriminate|].
        destruct (get_connection_info parse_uri x s) as [i|e''] eqn:Hx.
        -- destruct (collect_connection_infos parse_uri l s); [discriminate|].
           apply IH. exact Hc.
        -- inversion Hc; subst. exists x. exact Hx.
    + destruct (get_connection_info parse_uri _ s) as [info|e'] eqn:Hg.
      * simpl in He. discriminate.
      * inversion He; subst. left. eexists. exact Hg.
  - intros c k key value ttl e.
    split; [intros c' k'; apply connect_err_wraps|].
    unfold get, set, delete, append.
    destruct (connect CM GA c k) as [[[[cn|e']|] c'] k'] eqn:Hc.
    + destruct cn; (destruct ttl; [|]); simpl;
        repeat split; intros H; inversion H as [H']; exact (map_err_format_wraps _ _ H').
    + destruct (connect_err_wraps CM GA c k e' c' k' Hc) as [re Hre].
      simpl; repeat split; intros H; inversion H; subst; exists re; reflexivity.
    + simpl; repeat split; intros H; discriminate.
Qed.

Lemma password_field_not_rendered_witness :
  (exists e, new sample_parse sample_cluster_build leak_settings_bad_host = Err e /\
     ((exists ep, get_connection_info sample_parse ep leak_settings_bad_host = Err e) \/
      (exists re, e = format_redis_error re))) /\
  (call_ret (get cm_ok cluster_fail_first (fun _ _ => Ok None) cluster_client_empty 0 "k")
     = Some (Err (format_redis_error refused)) /\
   exists re, format_redis_error refused = format_redis_error re).
Proof.
  split.
  - destruct (password_field_not_rendered sample_parse sample_cluster_build cm_ok
                cluster_fail_first exec_ok (fun _ _ => Ok None) (fun _ _ => Ok tt)
                (fun _ _ _ => Ok tt) leak_settings_bad_host "hunter2" "other")
      as (_ & _ & _ & Hnew & _).
    eexists. split; [reflexivity|]. apply Hnew. reflexivity.
  - destruct (password_field_not_rendered sample_parse sample_cluster_build cm_ok
                cluster_fail_first exec_ok (fun _ _ => Ok None) (fun _ _ => Ok tt)
                (fun _ _ _ => Ok tt) no_settings "hunter2" "other")
      as (_ & _ & _ & _ & Hops).
    destruct (Hops cluster_client_empty 0 "k" [] None (format_redis_error refused))
      as (_ & _ & Hget & _).
    split; [reflexivity|]. apply Hget. reflexivity.
Defined.

(** ** C9 *)

(** Claim C9 as stated: two callers on an empty cell, the first setup
    fails.  The failing caller gets the error, the semaphore permit goes
    back, and the other caller runs a second setup: two setups, and the
    callers end with different results. *)
Lemma connect_concurrent_counterexample :
  exists w, steps cm_ok cluster_fail_first cluster_client_empty init_world w /\
    setups (sh w) = 2 /\
    th1 w = TDone (Some (Err (format_redis_error refused))) /\
    th2 w = TDone (Some (Ok (Cluster (mkClusterConnection 1)))).
Proof.
  eexists. split.
  - eapply steps_cons; [apply step_th1; reflexivity|].
    eapply steps_cons; [apply step_th2; reflexivity|].
    eapply steps_cons; [apply step_th1; reflexivity|].
    eapply steps_cons; [apply step_th1; reflexivity|].
    eapply steps_cons; [apply step_th2; reflexivity|].
    eapply steps_cons; [apply step_th2; reflexivity|].
    apply steps_refl.
  - repeat split.
Qed.

Definition is_done (t : tstate) : Prop :=
  match t with TDone _ => True | _ => False end.

(** Before the first setup completes: at most one caller holds the permit
    (is in [TInit]), and the permit is free exactly when none does. *)
Definition phase_empty (w : world) : Prop :=
  cell (sh w) = None /\ closed (sh w) = false /\ setups (sh w) = 0 /\
  match th1 w, th2 w with
  | TInit, TInit => False
  | TInit, (TStart | TAcquire) | (TStart | TAcquire), TInit => permit (sh w) = false
  | (TStart | TAcquire), (TStart | TAcquire) => permit (sh w) = true
  | _, _ => False
  end.

Definition settled (v : RedisConnection) (t : tstate) : Prop :=
  match t with
  | TStart | TAcquire => True
  | TInit => False
  | TDone r => r = Some (Ok v)
  end.

(** After the first setup succeeded with [v]: the cell holds [v], the
    semaphore is closed and every finished caller got [v]. *)
Definition phase_set (v : RedisConnection) (w : world) : Prop :=
  cell (sh w) = Some v /\ closed (sh w) = true /\ setups (sh w) = 1 /\
  settled v (th1 w) /\ settled v (th2 w).

Definition once_inv (v : RedisConnection) (w : world) : Prop :=
  phase_empty w \/ phase_set v w.

Section OnceCell.

Variable CM : Client -> nat -> result ConnectionManager RedisError.
Variable GA : ClusterClient -> nat -> result ClusterConnection RedisError.
Variable c : RedisClient.
Variable v : RedisConnection.
Hypothesis first_setup_ok : init_closure CM GA c 0 = Some (Ok v).

Ltac close_phase :=
  first [ left; repeat split; simpl; auto; discriminate
        | right; repeat split; simpl; auto; discriminate
        | left; repeat split; simpl; auto
        | right; repeat split; simpl; auto ].

Lemma once_inv_step : forall w w', step CM GA c w w' -> once_inv v w -> once_inv v w'.
Proof.
  intros w w' Hs Hinv.
  destruct Hs as [w sh' t' H | w sh' t' H];
    destruct w as [[cl pm cs n] t1 t2];
    destruct Hinv as [(Hc & Hcl & Hn & Hm) | (Hc & Hcl & Hn & H1 & H2)];
    simpl in *; subst;
    destruct t1; destruct t2; simpl in *; try contradiction; subst;
    try (destruct pm; try discriminate);
    try rewrite first_setup_ok in H;
    simpl in H; try discriminate;
    inversion H; subst; clear H; close_phase.
Qed.

Lemma once_inv_steps : forall w, steps CM GA c init_world w -> once_inv v w.
Proof.
  assert (Hg : forall w1 w2, steps CM GA c w1 w2 -> once_inv v w1 -> once_inv v w2).
  { intros w1 w2 Hs. induction Hs as [w|w1 w2 w3 H12 H23 IH]; intros Hi;
      [exact Hi | apply IH; exact (once_inv_step w1 w2 H12 Hi)]. }
  intros w Hs. apply (Hg _ _ Hs). left. repeat split.
Qed.

(** A caller that has not finished can always move. *)
Lemma once_inv_progress : forall w, once_inv v w ->
  ~ (is_done (th1 w) /\ is_done (th2 w)) -> exists w', step CM GA c w w'.
Proof.
  intros [[cl pm cs n] t1 t2] Hinv Hnd.
  destruct Hinv as [(Hc & Hcl & Hn & Hm) | (Hc & Hcl & Hn & H1 & H2)];
    simpl in *; subst;
    destruct t1; destruct t2; simpl in *; try contradiction;
    try (destruct pm; try discriminate);
    first
      [ exfalso; apply Hnd; split; exact I
      | eexists; apply step_th1; simpl; try rewrite first_setup_ok; reflexivity
      | eexists; apply step_th2; simpl; try rewrite first_setup_ok; reflexivity ].
Qed.

End OnceCell.

(** A caller still waiting for the permit ([p] the permit's state). *)
Definition pending (p : bool) (t : tstate) : Prop :=
  match t with
  | TStart | TAcquire => p = true
  | TInit => p = false
  | TDone _ => False
  end.

(** After the first setup failed with [f0]: the cell is still empty, the
    semaphore open, and the other caller has not finished. *)
Definition fail_one (f0 : option (result RedisConnection Error)) (w : world) : Prop :=
  cell (sh w) = None /\ closed (sh w) = false /\ setups (sh w) = 1 /\
  match th1 w, th2 w with
  | TDone r, t => r = f0 /\ pending (permit (sh w)) t
  | t, TDone r => r = f0 /\ pending (permit (sh w)) t
  | _, _ => False
  end.

(** Both finished after two setups: one caller got [f0], the other [f1]. *)
Definition fail_two (f0 f1 : option (result RedisConnection Error)) (w : world) : Prop :=
  setups (sh w) = 2 /\
  match th1 w, th2 w with
  | TDone r1, TDone r2 => (r1 = f0 /\ r2 = f1) \/ (r1 = f1 /\ r2 = f0)
  | _, _ => False
  end.

Definition fail_inv (f0 f1 : option (result RedisConnection Error)) (w : world) : Prop :=
  phase_empty w \/ fail_one f0 w \/ fail_two f0 f1 w.

Section OnceCellFail.

Variable CM : Client -> nat -> result ConnectionManager RedisError.
Variable GA : ClusterClient -> nat -> result ClusterConnection RedisError.
Variable c : RedisClient.
Variable e0 : RedisError.
Variable r1 : result RedisConnection RedisError.
Hypothesis first_setup_err : init_closure CM GA c 0 = Some (Err e0).
Hypothesis second_setup : init_closure CM GA c 1 = Some r1.

Ltac split_hyps :=
  repeat match goal with
         | H : _ /\ _ |- _ => destruct H
         | H : False |- _ => contradiction
         end.

Lemma fail_inv_step : forall w w', step CM GA c w w' ->
  fail_inv (Some (Err (format_redis_error e0))) (Some (map_err format_redis_error r1)) w ->
  fail_inv (Some (Err (format_redis_error e0))) (Some (map_err format_redis_error r1)) w'.
Proof.
  intros w w' Hs Hinv.
  destruct Hs as [w sh' t' H | w sh' t' H];
    destruct w as [[cl pm cs n] t1 t2];
    destruct Hinv as [(Hc & Hcl & Hn & Hm) | [(Hc & Hcl & Hn & Hm) | (Hn & Hm)]];
    simpl in *; subst;
    destruct t1; destruct t2; simpl in *; split_hyps; subst;
    try (destruct pm; try discriminate);
    try rewrite first_setup_err in H; try rewrite second_setup in H;
    simpl in H; try discriminate;
    destruct r1 as [v1|e1]; simpl in *; try discriminate;
    inversion H; subst; clear H;
    unfold fail_inv, phase_empty, fail_one, fail_two; simpl;
    intuition (auto; try discriminate).
Qed.

Lemma fail_inv_steps : forall w, steps CM GA c init_world w ->
  fail_inv (Some (Err (format_redis_error e0))) (Some (map_err format_redis_error r1)) w.
Proof.
  assert (Hg : forall w1 w2, steps CM GA c w1 w2 ->
            fail_inv (Some (Err (format_redis_error e0))) (Some (map_err format_redis_error r1)) w1 ->
            fail_inv (Some (Err (format_redis_error e0))) (Some (map_err format_redis_error r1)) w2).
  { intros w1 w2 Hs. induction Hs as [w|w1 w2 w3 H12 H23 IH]; intros Hi;
      [exact Hi | apply IH; exact (fail_inv_step w1 w2 H12 Hi)]. }
  intros w Hs. apply (Hg _ _ Hs). left. repeat split.
Qed.

Lemma fail_inv_progress : forall w,
  fail_inv (Some (Err (format_redis_error e0))) (Some (map_err format_redis_error r1)) w ->
  ~ (is_done (th1 w) /\ is_done (th2 w)) -> exists w', step CM GA c w w'.
Proof.
  intros [[cl pm cs n] t1 t2] Hinv Hnd.
  destruct r1 as [v1|e1];
  destruct Hinv as [(Hc & Hcl & Hn & Hm) | [(Hc & Hcl & Hn & Hm) | (Hn & Hm)]];
    simpl in *; subst;
    destruct t1; destruct t2; simpl in *; split_hyps; subst;
    try (destruct pm; try discriminate);
    first
      [ exfalso; apply Hnd; split; exact I
      | eexists; apply step_th1; simpl;
        try rewrite first_setup_err; try rewrite second_setup; reflexivity
      | eexists; apply step_th2; simpl;
        try rewrite first_setup_err; try rewrite second_setup; reflexivity ].
Qed.

End OnceCellFail.

(** Two sample runs of both callers on [cluster_client_empty]: the second
    caller waits on the permit while the first runs the setup. *)
Definition ok_world : world :=
  mkWorld (mkShared (Some (Cluster (mkClusterConnection 0))) false true 1)
    (TDone (Some (Ok (Cluster (mkClusterConnection 0)))))
    (TDone (Some (Ok (Cluster (mkClusterConnection 0))))).

Definition fail_world : world :=
  mkWorld (mkShared (Some (Cluster (mkClusterConnection 1))) false true 2)
    (TDone (Some (Err (format_redis_error refused))))
    (TDone (Some (Ok (Cluster (mkClusterConnection 1))))).

Lemma ok_run : steps cm_ok cluster_ok cluster_client_empty init_world ok_world.
Proof.
  eapply steps_cons; [apply step_th1; reflexivity|].
  eapply steps_cons; [apply step_th2; reflexivity|].
  eapply steps_cons; [apply step_th1; reflexivity|].
  eapply steps_cons; [apply step_th1; reflexivity|].
  eapply steps_cons; [apply step_th2; reflexivity|].
  apply steps_refl.
Qed.

Lemma fail_run : steps cm_ok cluster_fail_first cluster_client_empty init_world fail_world.
Proof.
  eapply steps_cons; [apply step_th1; reflexivity|].
  eapply steps_cons; [apply step_th2; reflexivity|].
  eapply steps_cons; [apply step_th1; reflexivity|].
  eapply steps_cons; [apply step_th1; reflexivity|].
  eapply steps_cons; [apply step_th2; reflexivity|].
  eapply steps_cons; [apply step_th2; reflexivity|].
  apply steps_refl.
Qed.

(** Claim C9, as the code has it, for two callers of [connect] on an
    empty cell and any interleaving.  When the first setup succeeds with
    [v]: at most one setup is ever run, every caller that finishes gets
    [v], once both have finished exactly one setup has run, and a caller
    that has not finished can always move on.  When the first setup fails
    with [e0]: the caller that ran it gets [e0] (as an [Unexpected]
    error), the other caller runs the second setup and gets its outcome,
    so once both have finished two setups have run; here too a caller that
    has not finished can always move on.  A call on a client whose cell
    already holds a connection returns it and runs no setup. *)
Theorem connect_concurrent_share_once :
  forall (CM : Client -> nat -> result ConnectionManager RedisError)
         (GA : ClusterClient -> nat -> result ClusterConnection RedisError)
         (c : RedisClient),
    (forall v, init_closure CM GA c 0 = Some (Ok v) ->
       forall w, steps CM GA c init_world w ->
       setups (sh w) <= 1 /\
       (forall r, th1 w = TDone r -> r = Some (Ok v)) /\
       (forall r, th2 w = TDone r -> r = Some (Ok v)) /\
       (is_done (th1 w) -> is_done (th2 w) -> setups (sh w) = 1) /\
       (~ (is_done (th1 w) /\ is_done (th2 w)) -> exists w', step CM GA c w w')) /\
    (forall e0 r1, init_closure CM GA c 0 = Some (Err e0) -> init_closure CM GA c 1 = Some r1 ->
       forall w, steps CM GA c init_world w ->
       setups (sh w) <= 2 /\
       (forall r, th1 w = TDone r ->
          r = Some (Err (format_redis_error e0)) \/ r = Some (map_err format_redis_error r1)) /\
       (forall r, th2 w = TDone r ->
          r = Some (Err (format_redis_error e0)) \/ r = Some (map_err format_redis_error r1)) /\
       (is_done (th1 w) -> is_done (th2 w) ->
          setups (sh w) = 2 /\
          ((th1 w = TDone (Some (Err (format_redis_error e0))) /\
            th2 w = TDone (Some (map_err format_redis_error r1))) \/
           (th1 w = TDone (Some (map_err format_redis_error r1)) /\
            th2 w = TDone (Some (Err (format_redis_error e0)))))) /\
       (~ (is_done (th1 w) /\ is_done (th2 w)) -> exists w', step CM GA c w w')) /\
    (forall c' k x, conn c' = Some x -> connect CM GA c' k = (Some (Ok x), c', k)).
Proof.
  intros CM GA c. split; [|split].
  - intros v Hfirst w Hs.
    pose proof (once_inv_steps CM GA c v Hfirst w Hs) as Hinv.
    split; [|split; [|split; [|split]]].
    + destruct Hinv as [(_ & _ & Hn & _) | (_ & _ & Hn & _)]; rewrite Hn; auto.
    + intros r Hr. destruct Hinv as [(_ & _ & _ & Hm) | (_ & _ & _ & H1 & _)];
        rewrite Hr in *; [destruct (th2 w); contradiction | exact H1].
    + intros r Hr. destruct Hinv as [(_ & _ & _ & Hm) | (_ & _ & _ & _ & H2)];
        rewrite Hr in *; [destruct (th1 w); contradiction | exact H2].
    + intros D1 _. destruct Hinv as [(_ & _ & _ & Hm) | (_ & _ & Hn & _)]; [|exact Hn].
      destruct (th1 w); try contradiction; destruct (th2 w); contradiction.
    + apply (once_inv_progress CM GA c v Hfirst w Hinv).
  - intros e0 r1 H0 H1 w Hs.
    pose proof (fail_inv_steps CM GA c e0 r1 H0 H1 w Hs) as Hinv.
    split; [|split; [|split; [|split]]].
    + destruct Hinv as [(_ & _ & Hn & _) | [(_ & _ & Hn & _) | (Hn & _)]]; rewrite Hn; auto.
    + intros r Hr. destruct Hinv as [(_ & _ & _ & Hm) | [(_ & _ & _ & Hm) | (_ & Hm)]];
        rewrite Hr in Hm; destruct (th2 w); simpl in Hm; intuition.
    + intros r Hr. destruct Hinv as [(_ & _ & _ & Hm) | [(_ & _ & _ & Hm) | (_ & Hm)]];
        rewrite Hr in Hm; destruct (th1 w); simpl in Hm; intuition.
    + intros D1 D2.
      destruct Hinv as [(_ & _ & _ & Hm) | [(_ & _ & _ & Hm) | (Hn & Hm)]];
        destruct (th1 w); try contradiction; destruct (th2 w); try contradiction;
        try (destruct Hm; contradiction).
      split; [exact Hn|]. destruct Hm as [[-> ->]|[-> ->]]; [left|right]; split; reflexivity.
    + apply (fail_inv_progress CM GA c e0 r1 H0 H1 w Hinv).
  - intros c' k x Hx. unfold connect. rewrite Hx. reflexivity.
Qed.

Lemma connect_concurrent_share_once_witness :
  (init_closure cm_ok cluster_ok cluster_client_empty 0 = Some (Ok (Cluster (mkClusterConnection 0))) /\
   steps cm_ok cluster_ok cluster_client_empty init_world ok_world /\
   setups (sh ok_world) <= 1) /\
  (init_closure cm_ok cluster_fail_first cluster_client_empty 0 = Some (Err refused) /\
   init_closure cm_ok cluster_fail_first cluster_client_empty 1
     = Some (Ok (Cluster (mkClusterConnection 1))) /\
   steps cm_ok cluster_fail_first cluster_client_empty init_world fail_world /\
   setups (sh fail_world) = 2 /\
   ((th1 fail_world = TDone (Some (Err (format_redis_error refused))) /\
     th2 fail_world = TDone (Some (map_err format_redis_error (Ok (Cluster (mkClusterConnection 1)))))) \/
    (th1 fail_world = TDone (Some (map_err format_redis_error (Ok (Cluster (mkClusterConnection 1))))) /\
     th2 fail_world = TDone (Some (Err (format_redis_error refused)))))).
Proof.
  split.
  - split; [reflexivity|]. split; [exact ok_run|].
    exact (proj1 (proj1 (connect_concurrent_share_once cm_ok cluster_ok cluster_client_empty)
                    (Cluster (mkClusterConnection 0)) eq_refl ok_world ok_run)).
  - split; [reflexivity|]. split; [reflexivity|]. split; [exact fail_run|].
    destruct (proj1 (proj2 (connect_concurrent_share_once cm_ok cluster_fail_first
                              cluster_client_empty))
                refused (Ok (Cluster (mkClusterConnection 1))) eq_refl eq_refl fail_world fail_run)
      as (_ & _ & _ & Hdone & _).
    exact (Hdone I I).
Defined.

(** * Further properties of the code *)

(** ** Endpoint parsing and construction errors *)

Lemma get_connection_info_err_shape (parse_uri : string -> result Uri string) ep s e :
  get_connection_info parse_uri ep s = Err e ->
  (exists pe, parse_uri ep = Err pe /\
     e = set_source (with_context (Error_new ConfigInvalid "endpoint is invalid") "endpoint" ep) pe) \/
  (exists u sc, parse_uri ep = Ok u /\ scheme_str u = Some sc /\
     ~ In sc ["tcp"; "redis"; "rediss"; "unix"; "redis+unix"] /\
     e = Error_new ConfigInvalid "invalid or unsupported scheme").
Proof.
  unfold get_connection_info. destruct (parse_uri ep) as [u|pe].
  - destruct (scheme_str u) as [sc|] eqn:Hs; [|discriminate].
    destruct (String.eqb_spec sc "tcp"); [discriminate|].
    destruct (String.eqb_spec sc "redis"); [discriminate|].
    destruct (String.eqb_spec sc "rediss"); [discriminate|].
    destruct (String.eqb_spec sc "unix"); [discriminate|].
    destruct (String.eqb_spec sc "redis+unix"); [discriminate|].
    simpl. intros H. inversion H; subst. right. exists u, sc.
    repeat split; auto. simpl. intuition.
  - intros H. inversion H; subst. left. exists pe. split; reflexivity.
Qed.

(** [get_connection_info] fails in exactly two ways, both of kind
    [ConfigInvalid]: the URI does not parse (error [endpoint is invalid]
    with the endpoint as context and the parse error as source), or its
    scheme is none of [tcp], [redis], [rediss], [unix], [redis+unix]
    (error [invalid or unsupported scheme], nothing attached). *)
Theorem get_connection_info_errors :
  forall (parse_uri : string -> result Uri string) (ep : string) (s : RedisSettings) (e : Error),
    get_connection_info parse_uri ep s = Err e ->
    kind e = ConfigInvalid /\
    ((exists pe, parse_uri ep = Err pe /\
        e = mkError ConfigInvalid "endpoint is invalid" [("endpoint", ep)] (Some pe)) \/
     (exists u sc, parse_uri ep = Ok u /\ scheme_str u = Some sc /\
        ~ In sc ["tcp"; "redis"; "rediss"; "unix"; "redis+unix"] /\
        e = mkError ConfigInvalid "invalid or unsupported scheme" [] None)).
Proof.
  intros parse_uri ep s e H.
  destruct (get_connection_info_err_shape parse_uri ep s e H)
    as [(pe & Hp & He) | (u & sc & Hp & Hs & Hn & He)]; subst; split; try reflexivity.
  - left. exists pe. split; [exact Hp | reflexivity].
  - right. exists u, sc. repeat split; assumption.
Qed.

Lemma get_connection_info_errors_witness :
  exists e, get_connection_info sample_parse "tcp://a b:1" no_settings = Err e /\
    kind e = ConfigInvalid /\
    ((exists pe, sample_parse "tcp://a b:1" = Err pe /\
        e = mkError ConfigInvalid "endpoint is invalid" [("endpoint", "tcp://a b:1")] (Some pe)) \/
     (exists u sc, sample_parse "tcp://a b:1" = Ok u /\ scheme_str u = Some sc /\
        ~ In sc ["tcp"; "redis"; "rediss"; "unix"; "redis+unix"] /\
        e = mkError ConfigInvalid "invalid or unsupported scheme" [] None)).
Proof.
  eexists. split; [reflexivity|].
  apply (get_connection_info_errors sample_parse "tcp://a b:1" no_settings). reflexivity.
Defined.

(** In single-node mode [new] fails only when the address (or the default
    endpoint) fails [get_connection_info], with that same [ConfigInvalid]
    error: the [Client::open] error branch is never taken. *)
Theorem new_single_mode_errors :
  forall (parse_uri : string -> result Uri string)
         (cluster_build : ClusterClientBuilder -> result ClusterClient RedisError)
         (s : RedisSettings) (e : Error),
    settings.addresses s = None ->
    new parse_uri cluster_build s = Err e ->
    get_connection_info parse_uri
      (match settings.address s with Some a => a | None => DEFAULT_REDIS_ENDPOINT end) s = Err e /\
    kind e = ConfigInvalid.
Proof.
  intros parse_uri cluster_build s e Ha H. unfold new in H. rewrite Ha in H.
  destruct (get_connection_info parse_uri _ s) as [info|e'] eqn:Hg.
  - simpl in H. discriminate.
  - inversion H; subst. split; [reflexivity|].
    destruct (get_connection_info_err_shape parse_uri _ s e Hg)
      as [(pe & _ & He) | (u & sc & _ & _ & _ & He)]; subst; reflexivity.
Qed.

Lemma new_single_mode_errors_witness :
  settings.addresses (with_address no_settings (Some "tcp://a b:1")) = None /\
  new sample_parse sample_cluster_build (with_address no_settings (Some "tcp://a b:1"))
    = Err (mkError ConfigInvalid "endpoint is invalid" [("endpoint", "tcp://a b:1")]
             (Some "invalid uri character")) /\
  kind (mkError ConfigInvalid "endpoint is invalid" [("endpoint", "tcp://a b:1")]
          (Some "invalid uri character")) = ConfigInvalid.
Proof.
  split; [reflexivity|]. split; [reflexivity|].
  exact (proj2 (new_single_mode_errors sample_parse sample_cluster_build
                  (with_address no_settings (Some "tcp://a b:1")) _ eq_refl eq_refl)).
Defined.

(** In cluster mode [new] parses the pieces in order and stops at the
    first bad one: its error is the error of the first piece that fails
    [get_connection_info], every piece before it having parsed; otherwise
    it is the cluster builder's error wrapped as [Unexpected]. *)
Theorem new_cluster_mode_errors :
  forall (parse_uri : string -> result Uri string)
         (cluster_build : ClusterClientBuilder -> result ClusterClient RedisError)
         (s : RedisSettings) (a : string) (e : Error),
    settings.addresses s = Some a ->
    new parse_uri cluster_build s = Err e ->
    (exists pre x post infos,
        split_comma a = (pre ++ x :: post)%list /\
        collect_connection_infos parse_uri pre s = Ok infos /\
        get_connection_info parse_uri x s = Err e /\ kind e = ConfigInvalid) \/
    (exists b re, cluster_client_builder parse_uri s a = Ok b /\ cluster_build b = Err re /\
        e = format_redis_error re /\ kind e = Unexpected).
Proof.
  intros parse_uri cluster_build s a e Ha H. unfold new in H. rewrite Ha in H.
  destruct (cluster_client_builder parse_uri s a) as [b|e'] eqn:Hb.
  - destruct (cluster_build b) as [cc|re] eqn:Hc; simpl in H; inversion H; subst.
    right. exists b, re. repeat split; assumption.
  - inversion H; subst. left. unfold cluster_client_builder in Hb.
    destruct (collect_connection_infos parse_uri (split_comma a) s) as [l|e''] eqn:Hl;
      [discriminate|]. inversion Hb; subst. clear Hb H.
    revert Hl. generalize (split_comma a) as pieces.
    induction pieces as [|x rest IH]; simpl; intros Hl; [discriminate|].
    destruct (get_connection_info parse_uri x s) as [i|ex] eqn:Hx.
    + destruct (collect_connection_infos parse_uri rest s) as [infos|er] eqn:Hr; [discriminate|].
      inversion Hl; subst.
      destruct (IH eq_refl) as (pre & y & post & infos & Hsp & Hpre & Hy & Hk).
      exists (x :: pre), y, post, (i :: infos). simpl. rewrite Hsp, Hx, Hpre.
      repeat split; assumption.
    + inversion Hl; subst. exists [], x, rest, []. repeat split; try assumption.
      destruct (get_connection_info_err_shape parse_uri x s e Hx)
        as [(pe & _ & He) | (u & sc & _ & _ & _ & He)]; subst; reflexivity.
Qed.

Lemma new_cluster_mode_errors_witness :
  settings.addresses (mkSettings None (Some "tcp://a:1,ftp://b:2,tcp://c:99999") None None 0)
    = Some "tcp://a:1,ftp://b:2,tcp://c:99999" /\
  exists e, new sample_parse sample_cluster_build
              (mkSettings None (Some "tcp://a:1,ftp://b:2,tcp://c:99999") None None 0) = Err e /\
  ((exists pre x post infos,
      split_comma "tcp://a:1,ftp://b:2,tcp://c:99999" = (pre ++ x :: post)%list /\
      collect_connection_infos sample_parse pre
        (mkSettings None (Some "tcp://a:1,ftp://b:2,tcp://c:99999") None None 0) = Ok infos /\
      get_connection_info sample_parse x
        (mkSettings None (Some "tcp://a:1,ftp://b:2,tcp://c:99999") None None 0) = Err e /\
      kind e = ConfigInvalid) \/
   (exists b re, cluster_client_builder sample_parse
                   (mkSettings None (Some "tcp://a:1,ftp://b:2,tcp://c:99999") None None 0)
                   "tcp://a:1,ftp://b:2,tcp://c:99999" = Ok b /\
                 sample_cluster_build b = Err re /\ e = format_redis_error re /\
                 kind e = Unexpected)).
Proof.
  split; [reflexivity|]. eexists. split; [reflexivity|].
  apply (new_cluster_mode_errors sample_parse sample_cluster_build
           (mkSettings None (Some "tcp://a:1,ftp://b:2,tcp://c:99999") None None 0)
           "tcp://a:1,ftp://b:2,tcp://c:99999"); reflexivity.
Defined.

(** ** Splitting the cluster endpoints *)

Fixpoint count_char (c : ascii) (s : string) : nat :=
  match s with
  | EmptyString => 0
  | String x r => (if Ascii.eqb x c then 1 else 0) + count_char c r
  end.

Lemma split_comma_not_nil s : split_comma s <> [].
Proof.
  destruct s as [|c r]; simpl; [discriminate|].
  destruct (Ascii.eqb c ","); [discriminate|].
  destruct (split_comma r); discriminate.
Qed.

Lemma join_cons_char sep c x xs :
  join sep (String c x :: xs) = String c (join sep (x :: xs)).
Proof. destruct xs; reflexivity. Qed.

(** [addresses.split(",")] loses nothing: joining the pieces with commas
    gives back the string, and there is one piece more than there are
    commas (one piece, [""], for the empty string). *)
Theorem split_comma_join_count :
  forall s : string,
    join "," (split_comma s) = s /\ length (split_comma s) = S (count_char "," s).
Proof.
  induction s as [|c r [IHj IHl]]; [split; reflexivity|].
  destruct (Ascii.eqb_spec c ",") as [->|Hc].
  - change (split_comma (String "," r)) with ("" :: split_comma r).
    destruct (split_comma r) as [|x xs] eqn:Hs; [exfalso; exact (split_comma_not_nil r Hs)|].
    change (join "," ("" :: x :: xs)) with ("" ++ "," ++ join "," (x :: xs)).
    rewrite IHj. split; [reflexivity | simpl in *; rewrite IHl; reflexivity].
  - simpl. apply Ascii.eqb_neq in Hc. rewrite Hc.
    destruct (split_comma r) as [|x xs] eqn:Hs; [exfalso; exact (split_comma_not_nil r Hs)|].
    rewrite join_cons_char, IHj. split; [reflexivity | simpl in *; lia].
Qed.

(** ** The connection cell *)

(** A client built by [new] always has a template, so the [unwrap()] in
    [connect]'s closure never panics. *)
Theorem new_client_connect_no_panic :
  forall (parse_uri : string -> result Uri string)
         (cluster_build : ClusterClientBuilder -> result ClusterClient RedisError)
         (CM : Client -> nat -> result ConnectionManager RedisError)
         (GA : ClusterClient -> nat -> result ClusterConnection RedisError)
         (s : RedisSettings) (c : RedisClient) (k : nat),
    new parse_uri cluster_build s = Ok c ->
    init_closure CM GA c k <> None /\ fst (fst (connect CM GA c k)) <> None.
Proof.
  intros parse_uri cluster_build CM GA s c k Hn. unfold new in Hn.
  destruct (settings.addresses s) as [a|].
  - destruct (cluster_client_builder parse_uri s a); [|discriminate].
    destruct (cluster_build _); simpl in Hn; inversion Hn; subst.
    unfold connect, init_closure; simpl.
    destruct (GA _ k); simpl; split; discriminate.
  - destruct (get_connection_info parse_uri _ s); [|discriminate].
    simpl in Hn. inversion Hn; subst.
    unfold connect, init_closure; simpl.
    destruct (CM _ k); simpl; split; discriminate.
Qed.

Lemma new_client_connect_no_panic_witness :
  exists c, new sample_parse sample_cluster_build cluster_settings = Ok c /\
    init_closure cm_ok cluster_fail_first c 0 <> None /\
    fst (fst (connect cm_ok cluster_fail_first c 0)) <> None.
Proof.
  eexists. split; [reflexivity|].
  apply (new_client_connect_no_panic sample_parse sample_cluster_build cm_ok cluster_fail_first
           cluster_settings). reflexivity.
Defined.

(** ** The dispatcher *)

Lemma connect_err_kind CM GA c k e c' k' :
  connect CM GA c k = (Some (Err e), c', k') -> kind e = Unexpected.
Proof.
  unfold connect. destruct (conn c); [discriminate|].
  destruct (init_closure CM GA c k) as [[x|re]|]; try discriminate.
  intros H. inversion H; reflexivity.
Qed.

Lemma map_err_format_kind {A : Type} (r : result A RedisError) e :
  map_err format_redis_error r = Err e -> kind e = Unexpected.
Proof. destruct r; simpl; intros H; inversion H; reflexivity. Qed.

(** Every error returned by [get], [set], [delete] or [append] has kind
    [Unexpected]: connection failures and command failures alike go
    through [format_redis_error]. *)
Theorem operations_errors_unexpected :
  forall (CM : Client -> nat -> result ConnectionManager RedisError)
         (GA : ClusterClient -> nat -> result ClusterConnection RedisError)
         (eg : RedisConnection -> string -> result (option (list Byte.byte)) RedisError)
         (es : RedisConnection -> Command -> result unit RedisError)
         (ed : RedisConnection -> string -> result unit RedisError)
         (ea : RedisConnection -> string -> list Byte.byte -> result unit RedisError)
         (c : RedisClient) (k : nat) (key : string) (value : list Byte.byte)
         (ttl : option Duration) (e : Error),
    (call_ret (get CM GA eg c k key) = Some (Err e) -> kind e = Unexpected) /\
    (ret (set CM GA es c k key value ttl) = Some (Err e) -> kind e = Unexpected) /\
    (call_ret (delete CM GA ed c k key) = Some (Err e) -> kind e = Unexpected) /\
    (call_ret (append CM GA ea c k key value) = Some (Err e) -> kind e = Unexpected).
Proof.
  intros CM GA eg es ed ea c k key value ttl e.
  unfold get, set, delete, append.
  destruct (connect CM GA c k) as [[[[cn|e']|] c'] k'] eqn:Hc.
  - destruct cn; [| ]; (destruct ttl; [|]); simpl;
      repeat split; intros H; inversion H as [H']; exact (map_err_format_kind _ _ H').
  - pose proof (connect_err_kind CM GA c k e' c' k' Hc) as Hk.
    simpl; repeat split; intros H; inversion H; subst; assumption.
  - simpl; repeat split; intros H; discriminate.
Qed.

Lemma operations_errors_unexpected_witness :
  call_ret (get cm_ok cluster_fail_first (fun _ _ => Ok None) cluster_client_empty 0 "k")
    = Some (Err (format_redis_error refused)) /\
  kind (format_redis_error refused) = Unexpected.
Proof.
  split; [reflexivity|].
  exact (proj1 (operations_errors_unexpected cm_ok cluster_fail_first (fun _ _ => Ok None)
                  exec_ok (fun _ _ => Ok tt) (fun _ _ _ => Ok tt) cluster_client_empty 0 "k" []
                  None (format_redis_error refused)) eq_refl).
Defined.

(** On a client with an empty cell whose setup succeeds, [set] followed
    by [get] makes a single setup, and [get] runs on the connection [set]
    used. *)
Theorem set_then_get_one_setup :
  forall (CM : Client -> nat -> result ConnectionManager RedisError)
         (GA : ClusterClient -> nat -> result ClusterConnection RedisError)
         (es : RedisConnection -> Command -> result unit RedisError)
         (eg : RedisConnection -> string -> result (option (list Byte.byte)) RedisError)
         (c : RedisClient) (k : nat) (x : RedisConnection)
         (key : string) (value : list Byte.byte) (ttl : option Duration),
    conn c = None ->
    init_closure CM GA c k = Some (Ok x) ->
    let r1 := set CM GA es c k key value ttl in
    let r2 := get CM GA eg (client_after r1) (attempts_after r1) key in
    map fst (issued r1) = [x] /\
    call_ret r2 = Some (map_err format_redis_error (eg x key)) /\
    call_attempts r2 = S k /\ conn (call_client r2) = Some x.
Proof.
  intros CM GA es eg c k x key value ttl Hn Hi r1 r2.
  assert (Hc : connect CM GA c k = (Some (Ok x), set_conn c x, S k)).
  { unfold connect. rewrite Hn, Hi. reflexivity. }
  assert (Hc2 : connect CM GA (set_conn c x) (S k) = (Some (Ok x), set_conn c x, S k))
    by reflexivity.
  assert (E1 : client_after r1 = set_conn c x /\ attempts_after r1 = S k /\ map fst (issued r1) = [x]).
  { subst r1. unfold set. rewrite Hc. destruct ttl; destruct x; repeat split. }
  destruct E1 as (E1a & E1b & E1c). subst r2. rewrite E1a, E1b.
  unfold get. rewrite Hc2. split; [exact E1c|]. destruct x; repeat split.
Qed.

Lemma set_then_get_one_setup_witness :
  conn single_client = None /\
  init_closure cm_ok cluster_ok single_client 3 = Some (Ok (Single (mkConnectionManager 3))) /\
  call_attempts (get cm_ok cluster_ok (fun _ _ => Ok None)
                   (client_after (set cm_ok cluster_ok exec_ok single_client 3 "k" [] None))
                   (attempts_after (set cm_ok cluster_ok exec_ok single_client 3 "k" [] None)) "k")
    = 4.
Proof.
  split; [reflexivity|]. split; [reflexivity|].
  exact (proj1 (proj2 (proj2 (set_then_get_one_setup cm_ok cluster_ok exec_ok
                                (fun _ _ => Ok None) single_client 3
                                (Single (mkConnectionManager 3)) "k" [] None eq_refl eq_refl)))).
Defined.

(** A ttl under one second is sent as [SETEX] with 0 seconds. *)
Theorem set_subsecond_ttl_zero :
  forall (CM : Client -> nat -> result ConnectionManager RedisError)
         (GA : ClusterClient -> nat -> result ClusterConnection RedisError)
         (es : RedisConnection -> Command -> result unit RedisError)
         (c : RedisClient) (k : nat) (key : string) (value : list Byte.byte)
         (t : Duration) (cn : RedisConnection) (c' : RedisClient) (k' : nat),
    connect CM GA c k = (Some (Ok cn), c', k') ->
    (as_nanos t < 1000000000)%N ->
    issued (set CM GA es c k key value (Some t)) = [(cn, SETEX key value 0)].
Proof.
  intros CM GA es c k key value t cn c' k' Hc Ht.
  assert (H0 : as_secs t = 0%N).
  { unfold as_nanos in Ht. unfold as_secs. destruct (secs t) as [|p]; [reflexivity|]. lia. }
  unfold set. rewrite Hc, H0. destruct cn; reflexivity.
Qed.

Lemma set_subsecond_ttl_zero_witness :
  connect cm_ok cluster_ok single_client 0
    = (Some (Ok (Single (mkConnectionManager 0))),
       set_conn single_client (Single (mkConnectionManager 0)), 1) /\
  (as_nanos (mkDuration 0 500000000) < 1000000000)%N /\
  issued (set cm_ok cluster_ok exec_ok single_client 0 "k" [] (Some (mkDuration 0 500000000)))
    = [(Single (mkConnectionManager 0), SETEX "k" [] 0)].
Proof.
  assert (Hc : connect cm_ok cluster_ok single_client 0
               = (Some (Ok (Single (mkConnectionManager 0))),
                  set_conn single_client (Single (mkConnectionManager 0)), 1)) by reflexivity.
  assert (Ht : (as_nanos (mkDuration 0 500000000) < 1000000000)%N) by reflexivity.
  split; [exact Hc|]. split; [exact Ht|].
  exact (set_subsecond_ttl_zero cm_ok cluster_ok exec_ok single_client 0 "k" []
           (mkDuration 0 500000000) _ _ _ Hc Ht).
Defined.

(** ** Two callers under any driver behaviour *)

Definition err_done (t : tstate) : nat :=
  match t with TDone (Some (Err _)) => 1 | _ => 0 end.

Definition cell_count (o : option RedisConnection) : nat :=
  match o with Some _ => 1 | None => 0 end.

Definition ok_done_in_cell (o : option RedisConnection) (t : tstate) : Prop :=
  match t with TDone (Some (Ok y)) => o = Some y | _ => True end.

Definition ok_done (t : tstate) : Prop :=
  match t with TDone (Some (Ok _)) => True | _ => False end.

(** The permit protects the closure; the semaphore is closed exactly when
    the cell is set; a caller that got a connection got the cell's; each
    setup so far either failed for a caller or filled the cell. *)
Definition excl_inv (w : world) : Prop :=
  match th1 w, th2 w with
  | TInit, TInit => False
  | TInit, _ | _, TInit => permit (sh w) = false /\ cell (sh w) = None
  | _, _ => True
  end /\
  (permit (sh w) = true -> cell (sh w) = None) /\
  (closed (sh w) = true <-> cell (sh w) <> None) /\
  ok_done_in_cell (cell (sh w)) (th1 w) /\ ok_done_in_cell (cell (sh w)) (th2 w) /\
  (cell (sh w) <> None -> ok_done (th1 w) \/ ok_done (th2 w)) /\
  setups (sh w) = err_done (th1 w) + err_done (th2 w) + cell_count (cell (sh w)).

Section AnyDriver.

Variable CM : Client -> nat -> result ConnectionManager RedisError.
Variable GA : ClusterClient -> nat -> result ClusterConnection RedisError.
Variable c : RedisClient.

Lemma excl_inv_step : forall w w', step CM GA c w w' -> excl_inv w -> excl_inv w'.
Proof.
  intros w w' Hs Hinv.
  destruct Hs as [w sh' t' H | w sh' t' H];
    destruct w as [[cl pm cs n] t1 t2];
    destruct Hinv as (Hm & Hp & Hcl & H1 & H2 & Hf & Hn);
    simpl in *;
    destruct (init_closure CM GA c n) as [[y|e]|] eqn:Hi;
    destruct t1 as [| | |[[]|]]; destruct t2 as [| | |[[]|]]; simpl in *;
    try contradiction;
    destruct cl, cs, pm; simpl in *;
    try rewrite Hi in H; try discriminate;
    try (injection H as <- <-);
    repeat split; simpl in *;
    intuition (try discriminate; try congruence; try lia).
Qed.

End AnyDriver.

(** Whatever the driver's setups return, two callers of [connect] never run
    the setup closure at the same time; two callers that both got a
    connection got the same one; and a setup is run again only after a
    failed one: the number of setups is the number of callers that got a
    setup error, plus one if the cell was filled (so at most two). *)
Theorem connect_concurrent_any_driver :
  forall (CM : Client -> nat -> result ConnectionManager RedisError)
         (GA : ClusterClient -> nat -> result ClusterConnection RedisError)
         (c : RedisClient) (w : world),
    steps CM GA c init_world w ->
    ~ (th1 w = TInit /\ th2 w = TInit) /\
    (forall y1 y2, th1 w = TDone (Some (Ok y1)) -> th2 w = TDone (Some (Ok y2)) -> y1 = y2) /\
    setups (sh w) = err_done (th1 w) + err_done (th2 w) + cell_count (cell (sh w)) /\
    setups (sh w) <= 2.
Proof.
  intros CM GA c w Hs.
  assert (Hg : forall w1 w2, steps CM GA c w1 w2 -> excl_inv w1 -> excl_inv w2).
  { intros w1 w2 H12. induction H12 as [w0|w1 w2 w3 Hst _ IH]; intros Hi;
      [exact Hi | apply IH; exact (excl_inv_step CM GA c w1 w2 Hst Hi)]. }
  assert (Hinv : excl_inv w).
  { apply (Hg _ _ Hs). unfold excl_inv; simpl. intuition discriminate. }
  destruct Hinv as (Hm & Hp & Hcl & H1 & H2 & Hf & Hn).
  split; [|split; [|split]].
  - intros [E1 E2]. rewrite E1, E2 in Hm. exact Hm.
  - intros y1 y2 E1 E2. rewrite E1 in H1. rewrite E2 in H2. simpl in *. congruence.
  - exact Hn.
  - rewrite Hn. destruct (th1 w) as [| | |[[]|]], (th2 w) as [| | |[[]|]], (cell (sh w));
      simpl in *; try lia.
    all: exfalso; destruct Hf as [F|F]; [discriminate | contradiction | contradiction].
Qed.

Lemma connect_concurrent_any_driver_witness :
  steps cm_ok cluster_fail_first cluster_client_empty init_world fail_world /\
  setups (sh fail_world)
  = err_done (th1 fail_world) + err_done (th2 fail_world) + cell_count (cell (sh fail_world)) /\
  setups (sh fail_world) <= 2.
Proof.
  split; [exact fail_run|].
  destruct (connect_concurrent_any_driver cm_ok cluster_fail_first cluster_client_empty
              fail_world fail_run) as (_ & _ & Hn & Hle).
  split; [exact Hn | exact Hle].
Defined.

(** ** Single-line renderings *)

Fixpoint has_nl (s : string) : bool :=
  match s with
  | EmptyString => false
  | String c r => Nat.eqb (nat_of_ascii c) 10 || has_nl r
  end.

Lemma has_nl_app a b : has_nl (a ++ b) = has_nl a || has_nl b.
Proof. induction a as [|c r IH]; simpl; [reflexivity|]. rewrite IH, orb_assoc. reflexivity. Qed.

Lemma escape_char_no_nl c : has_nl (escape_char c) = false.
Proof.
  destruct c as [b0 b1 b2 b3 b4 b5 b6 b7].
  destruct b0, b1, b2, b3, b4, b5, b6, b7; vm_compute; reflexivity.
Qed.

Lemma escape_debug_no_nl s : has_nl (escape_debug s) = false.
Proof.
  induction s as [|c r IH]; simpl; [reflexivity|].
  rewrite has_nl_app, escape_char_no_nl, IH. reflexivity.
Qed.

Lemma debug_str_no_nl s : has_nl (debug_str s) = false.
Proof. unfold debug_str. rewrite !has_nl_app, escape_debug_no_nl. reflexivity. Qed.

Lemma join_no_nl sep l :
  has_nl sep = false -> forallb (fun x => negb (has_nl x)) l = true -> has_nl (join sep l) = false.
Proof.
  intros Hs. induction l as [|x l IH]; simpl; [reflexivity|].
  intros H. apply andb_true_iff in H as [Hx Hl]. apply negb_true_iff in Hx.
  destruct l as [|y l']; [exact Hx|].
  rewrite !has_nl_app, Hx, Hs, (IH Hl). reflexivity.
Qed.

Lemma fields_no_nl (l : list (string * string)) :
  forallb (fun '(k, v) => negb (has_nl k) && negb (has_nl v)) l = true ->
  forallb (fun x => negb (has_nl x)) (map (fun '(k, v) => k ++ ": " ++ v) l) = true.
Proof.
  induction l as [|[k v] l IH]; intros H; [reflexivity|].
  cbn [map forallb] in *.
  apply andb_true_iff in H as [Hkv Hl]. apply andb_true_iff in Hkv as [Hk Hv].
  apply negb_true_iff in Hk, Hv.
  rewrite !has_nl_app, Hk, Hv, (IH Hl). reflexivity.
Qed.

Lemma debug_struct_no_nl name fields ne :
  has_nl name = false ->
  forallb (fun '(k, v) => negb (has_nl k) && negb (has_nl v)) fields = true ->
  has_nl (debug_struct false name fields ne) = false.
Proof.
  intros Hn Hf. unfold debug_struct.
  destruct fields as [|f fs].
  - rewrite has_nl_app, Hn. destruct ne; reflexivity.
  - rewrite !has_nl_app, Hn.
    rewrite (join_no_nl ", " (map (fun '(k, v) => k ++ ": " ++ v) (f :: fs)) eq_refl).
    + destruct ne; reflexivity.
    + exact (fields_no_nl _ Hf).
Qed.

Lemma count_char_app c a b : count_char c (a ++ b) = count_char c a + count_char c b.
Proof. induction a as [|x r IH]; simpl; [reflexivity|]. rewrite IH. lia. Qed.

Lemma count_nl_zero s : has_nl s = false -> count_char (ascii_of_nat 10) s = 0.
Proof.
  induction s as [|x r IH]; simpl; [reflexivity|].
  intros H. apply orb_false_iff in H as [Hx Hr]. rewrite (IH Hr).
  destruct (Ascii.eqb_spec x (ascii_of_nat 10)) as [E|E]; [|reflexivity].
  subst x. discriminate.
Qed.

Lemma pretty_fields_count (l : list (string * string)) :
  forallb (fun '(k, v) => negb (has_nl k) && negb (has_nl v)) l = true ->
  count_char (ascii_of_nat 10)
    (String.concat "" (map (fun '(k, v) => "    " ++ k ++ ": " ++ v ++ "," ++ nl) l))
  = length l.
Proof.
  induction l as [|[k v] l IH]; intros H; [reflexivity|].
  cbn [map forallb] in *.
  apply andb_true_iff in H as [Hkv Hl]. apply andb_true_iff in Hkv as [Hk Hv].
  apply negb_true_iff in Hk, Hv.
  assert (Hline : count_char (ascii_of_nat 10) ("    " ++ k ++ ": " ++ v ++ "," ++ nl) = 1).
  { rewrite !count_char_app, (count_nl_zero k Hk), (count_nl_zero v Hv). reflexivity. }
  destruct l as [|f l'].
  - exact Hline.
  - change (String.concat "" (("    " ++ k ++ ": " ++ v ++ "," ++ nl)
                             :: map (fun '(k, v) => "    " ++ k ++ ": " ++ v ++ "," ++ nl) (f :: l')))
      with (("    " ++ k ++ ": " ++ v ++ "," ++ nl) ++ ""
            ++ String.concat "" (map (fun '(k, v) => "    " ++ k ++ ": " ++ v ++ "," ++ nl) (f :: l'))).
    specialize (IH Hl).
    set (rest := String.concat "" (map _ (f :: l'))) in *.
    rewrite count_char_app, Hline. change ("" ++ rest) with rest. rewrite IH. reflexivity.
Qed.

Lemma debug_struct_pretty_count name fields ne :
  has_nl name = false ->
  forallb (fun '(k, v) => negb (has_nl k) && negb (has_nl v)) fields = true ->
  fields <> [] ->
  count_char (ascii_of_nat 10) (debug_struct true name fields ne)
  = 1 + length fields + (if ne then 1 else 0).
Proof.
  intros Hn Hf Hne. unfold debug_struct.
  destruct fields as [|f fs]; [contradiction|].
  rewrite !count_char_app, (count_nl_zero name Hn), (pretty_fields_count _ Hf).
  destruct ne; simpl; lia.
Qed.

Definition some_count {A : Type} (o : option A) : nat :=
  match o with Some _ => 1 | None => 0 end.

(** The [{:?}] forms of [RedisSettings] and [RedisClient] are always one
    line: every string they show goes through [str]'s Debug escaping, which
    writes a newline as the two characters [\n].  The [{:#?}] forms put
    each field on a line of its own: the settings end in one line per field
    shown ([db], and each of address, cluster endpoints, username and
    password that is set) plus the header and [..] lines, the client in
    its header and [addresses] lines. *)
Theorem debug_forms_line_count :
  forall (s : RedisSettings) (c : RedisClient),
    count_char (ascii_of_nat 10) (RedisSettings_debug false s) = 0 /\
    count_char (ascii_of_nat 10) (RedisClient_debug false c) = 0 /\
    count_char (ascii_of_nat 10) (RedisSettings_debug true s)
    = 3 + some_count (settings.address s) + some_count (settings.addresses s)
        + some_count (settings.username s) + some_count (settings.password s) /\
    count_char (ascii_of_nat 10) (RedisClient_debug true c) = 2.
Proof.
  intros s c.
  assert (Hs : forallb (fun '(k, v) => negb (has_nl k) && negb (has_nl v))
     ([("db", debug_str (string_of_Z (settings.db s)))]
      ++ (match settings.address s with Some a => [("address", debug_str a)] | None => [] end)
      ++ (match settings.addresses s with
          | Some a => [("cluster_endpoints", debug_str a)] | None => [] end)
      ++ (match settings.username s with Some u => [("username", debug_str u)] | None => [] end)
      ++ (match settings.password s with
          | Some _ => [("password", debug_str "<redacted>")] | None => [] end))%list = true).
  { destruct (settings.address s), (settings.addresses s), (settings.username s),
      (settings.password s); cbn [forallb app]; rewrite ?debug_str_no_nl; reflexivity. }
  assert (Hc : forallb (fun '(k, v) => negb (has_nl k) && negb (has_nl v))
                 [("addresses", debug_str (addresses c))] = true).
  { cbn [forallb]. rewrite debug_str_no_nl. reflexivity. }
  split; [|split; [|split]].
  - apply count_nl_zero. unfold RedisSettings_debug. apply debug_struct_no_nl; [reflexivity|exact Hs].
  - apply count_nl_zero. unfold RedisClient_debug. apply debug_struct_no_nl; [reflexivity|exact Hc].
  - unfold RedisSettings_debug. rewrite (debug_struct_pretty_count "RedisSettings" _ true eq_refl Hs).
    + destruct (settings.address s), (settings.addresses s), (settings.username s),
        (settings.password s); reflexivity.
    + discriminate.
  - unfold RedisClient_debug. rewrite (debug_struct_pretty_count "RedisClient" _ false eq_refl Hc);
      [reflexivity | discriminate].
Qed.

(** The Display form of [Error] adds no line break of its own: it is one
    line whenever the message, the context keys and values, and the
    rendered source have none. *)
Theorem error_display_single_line :
  forall e : Error,
    has_nl (message e) = false ->
    forallb (fun '(k, v) => negb (has_nl k) && negb (has_nl v)) (context e) = true ->
    match source e with Some s => has_nl s | None => false end = false ->
    has_nl (Error_display e) = false.
Proof.
  intros [k m ctx src] Hm Hc Hs. cbn [message context source] in *.
  unfold Error_display. cbn [kind message context source].
  assert (Hk : has_nl (ErrorKind_into_static k) = false) by (destruct k; reflexivity).
  assert (Hj : has_nl (join ", " (map (fun '(k0, v) => k0 ++ ": " ++ v) ctx)) = false).
  { apply join_no_nl; [reflexivity | exact (fields_no_nl _ Hc)]. }
  destruct ctx as [|p ps]; destruct (String.eqb m ""); destruct src as [s|];
    rewrite !has_nl_app, ?Hk, ?Hj, ?Hm, ?Hs; reflexivity.
Qed.

Lemma error_display_single_line_witness :
  has_nl (message (format_redis_error refused)) = false /\
  has_nl (Error_display (format_redis_error refused)) = false.
Proof.
  split; [reflexivity|].
  apply error_display_single_line; reflexivity.
Defined.
